(** * LED pattern firmware templates and hash routine: a shallow embedding

    Sources embedded here:
    - firmware/templates/stm32f407_template.c   (main, WS2812_Send, delay_ms)
    - firmware/templates/nuvoton_m051_template.c (main, delay_ms)
    - firmware/templates/pic18f4550_template.c   (main, delay_ms)
    - uploaders/verification/hash_routine.c      (main)

    The firmware is modelled as explicit state passing over the LED pin and a
    chronological log of the operations that are observable from outside
    (writes to the pin, passes of the volatile busy-wait loops, SysTick
    delays).  [pattern_data.h] is not part of the sources: FRAME_COUNT,
    LED_COUNT, [frames] and [frame_durations] are parameters. *)

From Stdlib Require Import ZArith List Bool Lia Ascii String.
Import ListNotations.
Local Open Scope Z_scope.

(** ** Machine integers *)

(** Conversion to an unsigned integer of [w] bits (C's conversion rule). *)
Definition wrap (w : Z) (x : Z) : Z := x mod 2 ^ w.
Definition u8 : Z -> Z := wrap 8.
Definition u16 : Z -> Z := wrap 16.

(** ** The LED pin and what can be observed of a run *)

Inductive level := LOW | HIGH.
Inductive direction := Input | Output.

Inductive event :=
| Write (l : level)        (* a write to the LED pin *)
| Busy                     (* one pass of an empty volatile busy-wait loop *)
| SysTickDelay (us : Z).   (* CLK_SysTickDelay(us) *)

Record state := mkState {
  pin_dir : direction;     (* how the LED pin is configured *)
  pin : level;             (* level the output latch of the LED pin holds *)
  log : list event         (* operations so far, oldest first *)
}.

Definition is_write (e : event) : bool :=
  match e with Write _ => true | _ => false end.

(** ** A state monad with two ways of not returning normally *)

Inductive result (A : Type) :=
| Ok (a : A) (s : state)   (* normal completion *)
| Fault                    (* read outside a table or buffer (undefined in C) *)
| Hang.                    (* the call never returns *)
Arguments Ok {A} a s.
Arguments Fault {A}.
Arguments Hang {A}.

Definition M (A : Type) := state -> result A.

Definition ret {A} (a : A) : M A := fun s => Ok a s.
Definition bind {A B} (m : M A) (k : A -> M B) : M B :=
  fun s => match m s with
           | Ok a s' => k a s'
           | Fault => Fault
           | Hang => Hang
           end.
Definition fault {A} : M A := fun _ => Fault.
Definition hang {A} : M A := fun _ => Hang.

Notation "x <- m ;; k" := (bind m (fun x => k))
  (at level 61, m at next level, right associativity).
Notation "m ;;; k" := (bind m (fun _ => k))
  (at level 61, right associativity).

Definition emit (e : event) : M unit :=
  fun s => Ok tt (mkState (pin_dir s) (pin s) (log s ++ [e])).
Definition set_pin (l : level) : M unit :=
  fun s => Ok tt (mkState (pin_dir s) l (log s ++ [Write l])).
Definition set_dir (d : direction) : M unit :=
  fun s => Ok tt (mkState d (pin s) (log s)).

(** [p[i]] on a table or buffer of known extent. *)
Definition read {A} (p : list A) (i : Z) : M A :=
  if i <? 0 then fault
  else match nth_error p (Z.to_nat i) with
       | Some a => ret a
       | None => fault
       end.

(** ** Counted loops

    [for (uintW_t i = 0; i < bound; i++) body].  The counter has [w] bits: when
    [bound] exceeds every value the counter can take, the condition never
    fails and the loop does not terminate. *)
Fixpoint for_from (n : nat) (i : Z) (body : Z -> M unit) : M unit :=
  match n with
  | O => ret tt
  | S n' => body i ;;; for_from n' (i + 1) body
  end.

Definition for_loop (w : Z) (bound : Z) (body : Z -> M unit) : M unit :=
  if 2 ^ w <=? bound then hang
  else for_from (Z.to_nat bound) 0 body.

(** ** The playback loop shared by the three templates

    [while (1) { for (uintW_t frame_idx = 0; frame_idx < FRAME_COUNT; frame_idx++) body }].
    The loop never returns; [fuel] counts evaluations of the condition
    [frame_idx < FRAME_COUNT].  When the condition holds the body runs and the
    index is incremented in [w] bits; when it fails the [for] statement ends,
    [while (1)] starts it again and the index is back at 0.  The result is the
    index that the next evaluation of the condition will see. *)
Fixpoint playback_loop (w FRAME_COUNT : Z) (body : Z -> M unit)
    (fuel : nat) (frame_idx : Z) : M Z :=
  match fuel with
  | O => ret frame_idx
  | S fuel' =>
      if frame_idx <? FRAME_COUNT then
        body frame_idx ;;; playback_loop w FRAME_COUNT body fuel' (wrap w (frame_idx + 1))
      else
        playback_loop w FRAME_COUNT body fuel' 0
  end.

(** The data of pattern_data.h, which the templates include. *)
Record pattern_data := mkPattern {
  FRAME_COUNT : Z;
  NUM_LEDS : Z;
  frames : list (list Z);
  frame_durations : list Z
}.

(** ** stm32f407_template.c *)

Module STM32.

(** GPIO_SetBits(LED_PORT, LED_PIN) and GPIO_ResetBits(LED_PORT, LED_PIN). *)
Definition GPIO_SetBits : M unit := set_pin HIGH.
Definition GPIO_ResetBits : M unit := set_pin LOW.

(** The body of the bit loop of WS2812_Send.  The two branches are kept as
    the source has them: each is a GPIO_SetBits followed by a GPIO_ResetBits;
    the waits are comments in the source, there is no statement for them. *)
Definition send_bit (byte bit : Z) : M unit :=
  if negb (Z.land byte (Z.shiftl 1 (7 - bit)) =? 0) then
    GPIO_SetBits ;;; GPIO_ResetBits
  else
    GPIO_SetBits ;;; GPIO_ResetBits.

(** void WS2812_Send(uint8_t *pData, uint16_t Len) *)
Definition WS2812_Send (pData : list Z) (Len : Z) : M unit :=
  let Len := u16 Len in
  for_loop 16 Len (fun i =>
    b <- read pData i ;;
    let byte := u8 b in
    for_loop 8 8 (fun bit => send_bit byte bit)).

(** void delay_ms(uint16_t ms) *)
Definition delay_ms (ms : Z) : M unit :=
  let ms := u16 ms in
  for_loop 16 ms (fun _ => for_loop 32 1000 (fun _ => emit Busy)).

Section Template.
Variable pd : pattern_data.

(** #define LED_COUNT NUM_LEDS *)
Definition LED_COUNT : Z := NUM_LEDS pd.

(** SystemInit, the clock of port A, and GPIO_Init with GPIO_Mode_OUT:
    the pin becomes an output; nothing is written to it. *)
Definition init : M unit := set_dir Output.

Definition frame_body (frame_idx : Z) : M unit :=
  frame_pixels <- read (frames pd) frame_idx ;;
  d <- read (frame_durations pd) frame_idx ;;
  let frame_duration := u16 d in
  WS2812_Send frame_pixels (LED_COUNT * 3) ;;;
  delay_ms frame_duration.

Definition playback : nat -> Z -> M Z :=
  playback_loop 16 (FRAME_COUNT pd) frame_body.

Definition main (fuel : nat) : M Z := init ;;; playback fuel 0.
End Template.

End STM32.

(** ** nuvoton_m051_template.c *)

Module Nuvoton.
Section Template.
Variable pd : pattern_data.

(** LED_COUNT is taken from pattern_data.h. *)
Definition LED_COUNT : Z := NUM_LEDS pd.

(** void delay_ms(uint16_t ms) *)
Definition delay_ms (ms : Z) : M unit :=
  let ms := u16 ms in
  for_loop 16 ms (fun _ => emit (SysTickDelay 1000)).

(** SYS_Init, GPIO_SetMode(..., GPIO_PMD_OUTPUT), GPIO_CLR. *)
Definition init : M unit := set_dir Output ;;; set_pin LOW.

(** The loop over the LEDs has an empty body: the call of WS2812_Send in it
    is a comment. *)
Definition frame_body (frame_idx : Z) : M unit :=
  frame_pixels <- read (frames pd) frame_idx ;;
  d <- read (frame_durations pd) frame_idx ;;
  let frame_duration := u16 d in
  for_loop 16 LED_COUNT (fun _ => ret tt) ;;;
  delay_ms frame_duration.

Definition playback : nat -> Z -> M Z :=
  playback_loop 16 (FRAME_COUNT pd) frame_body.

Definition main (fuel : nat) : M Z := init ;;; playback fuel 0.
End Template.
End Nuvoton.

(** ** pic18f4550_template.c *)

Module PIC.
Section Template.
Variable pd : pattern_data.

(** LED_COUNT is taken from pattern_data.h. *)
Definition LED_COUNT : Z := NUM_LEDS pd.

(** void delay_ms(uint16_t ms) *)
Definition delay_ms (ms : Z) : M unit :=
  let ms := u16 ms in
  for_loop 16 ms (fun _ => for_loop 16 1000 (fun _ => emit Busy)).

(** OSCCON = 0x70; LED_TRIS = 0; LED_PORT = 0. *)
Definition init : M unit := set_dir Output ;;; set_pin LOW.

(** The loop over the LEDs has an empty body; both counters have 8 bits. *)
Definition frame_body (frame_idx : Z) : M unit :=
  frame_pixels <- read (frames pd) frame_idx ;;
  d <- read (frame_durations pd) frame_idx ;;
  let frame_duration := u16 d in
  for_loop 8 LED_COUNT (fun _ => ret tt) ;;;
  delay_ms frame_duration.

Definition playback : nat -> Z -> M Z :=
  playback_loop 8 (FRAME_COUNT pd) frame_body.

Definition main (fuel : nat) : M Z := init ;;; playback fuel 0.
End Template.
End PIC.

(** ** Time and waveform

    [spin_ns] is the time one pass of a volatile busy-wait loop takes, in
    nanoseconds; it depends on the clock of the target.  Only the waits that
    the code executes count: a write to the pin is taken to last no time. *)
Definition duration (spin_ns : Z) (e : event) : Z :=
  match e with
  | Write _ => 0
  | Busy => spin_ns
  | SysTickDelay us => 1000 * us
  end.

Definition elapsed (spin_ns : Z) (tr : list event) : Z :=
  fold_right (fun e t => duration spin_ns e + t) 0 tr.

Definition quiet (tr : list event) : bool :=
  forallb (fun e => negb (is_write e)) tr.



(** Pulses of a waveform: each is a HIGH interval followed by a LOW interval,
    given by the two widths in nanoseconds. *)
Inductive phase :=
| Idle
| InHigh (h : Z)
| InLow (h l : Z).

Fixpoint scan (spin_ns : Z) (ph : phase) (tr : list event) : list (Z * Z) :=
  match tr with
  | [] => match ph with InLow h l => [(h, l)] | _ => [] end
  | Write HIGH :: tr' =>
      match ph with
      | InLow h l => (h, l) :: scan spin_ns (InHigh 0) tr'
      | InHigh h => scan spin_ns (InHigh h) tr'
      | Idle => scan spin_ns (InHigh 0) tr'
      end
  | Write LOW :: tr' =>
      match ph with
      | InHigh h => scan spin_ns (InLow h 0) tr'
      | other => scan spin_ns other tr'
      end
  | e :: tr' =>
      match ph with
      | InHigh h => scan spin_ns (InHigh (h + duration spin_ns e)) tr'
      | InLow h l => scan spin_ns (InLow h (l + duration spin_ns e)) tr'
      | Idle => scan spin_ns Idle tr'
      end
  end.

Definition pulses (spin_ns : Z) (tr : list event) : list (Z * Z) :=
  scan spin_ns Idle tr.

(** Modelled from the spec: the reference decoder, which is not part of the
    sources.  It classifies a pulse by its widths: a long HIGH then a short LOW
    is a 1, a short HIGH then a long LOW is a 0, anything else is no bit. *)
Definition classify (p : Z * Z) : option bool :=
  let (h, l) := p in
  if l <? h then Some true
  else if h <? l then Some false
  else None.

Fixpoint classify_all (ps : list (Z * Z)) : option (list bool) :=
  match ps with
  | [] => Some []
  | p :: ps' =>
      match classify p, classify_all ps' with
      | Some b, Some bs => Some (b :: bs)
      | _, _ => None
      end
  end.

(** Eight bits, most significant first, to a byte. *)
Definition byte_of_bits (bs : list bool) : Z :=
  fold_left (fun acc (b : bool) => 2 * acc + (if b then 1 else 0)) bs 0.

Fixpoint bytes_of_bits (n : nat) (bs : list bool) : list Z :=
  match n with
  | O => []
  | S n' => byte_of_bits (firstn 8 bs) :: bytes_of_bits n' (skipn 8 bs)
  end.

Definition decode (spin_ns : Z) (tr : list event) : option (list Z) :=
  match classify_all (pulses spin_ns tr) with
  | Some bs => Some (bytes_of_bits (Nat.div (List.length bs) 8) bs)
  | None => None
  end.

(** The pulse that the comments of WS2812_Send describe for a bit, with the
    waits as passes of a busy loop of 50 ns a pass: HIGH for 0.8 us then LOW
    for 0.45 us for a 1, HIGH for 0.4 us then LOW for 0.85 us for a 0. *)
Definition commented_pulse (b : bool) : list event :=
  if b then Write HIGH :: repeat Busy 16 ++ Write LOW :: repeat Busy 9
  else Write HIGH :: repeat Busy 8 ++ Write LOW :: repeat Busy 17.

(** Bit [k] of a buffer in transmission order: most significant bit of each
    byte first. *)
Definition wire_bit (pData : list Z) (k : nat) : bool :=
  Z.testbit (nth (Nat.div k 8) pData 0) (7 - Z.of_nat (Nat.modulo k 8)).

(** ** Frame Table Emitter *)

Module FrameTable.

(** A pixel: three 8-bit channels, in the order they go on the wire. *)
Record Pixel := mkPixel { ch0 : Z; ch1 : Z; ch2 : Z }.
Record Frame := mkFrame { pixels : list Pixel; duration : Z }.
Record Pattern := mkPat { pat_frames : list Frame; led_count : Z }.

Definition pixel_bytes (p : Pixel) : list Z := [ch0 p; ch1 p; ch2 p].
Definition frame_bytes (f : Frame) : list Z := flat_map pixel_bytes (pixels f).

Definition frame_ok (n : Z) (f : Frame) : bool :=
  Z.of_nat (List.length (pixels f)) =? n.

(** Modelled from the spec: the Frame Table Emitter, the build step that
    writes pattern_data.h, is not part of the sources.  Given a Pattern it
    produces the frame count, the duration table and the pixel table, and it
    rejects a Pattern that is empty or has a frame whose pixel count differs
    from LED_COUNT. *)
Definition emit_tables (p : Pattern) : option pattern_data :=
  match pat_frames p with
  | [] => None
  | _ :: _ =>
      if forallb (frame_ok (led_count p)) (pat_frames p) then
        Some (mkPattern (Z.of_nat (List.length (pat_frames p)))
                        (led_count p)
                        (map frame_bytes (pat_frames p))
                        (map duration (pat_frames p)))
      else None
  end.

End FrameTable.

(** ** hash_routine.c *)

Module SHA256.

(** Modelled from the spec: [sha256_hash] is declared in hash_routine.c and
    left to the platform; the spec fixes it as SHA-256 (32-byte digest). *)
Definition w32 (x : Z) : Z := x mod 2 ^ 32.
Definition rotr (n x : Z) : Z := w32 (Z.lor (Z.shiftr x n) (Z.shiftl x (32 - n))).
Definition ch (x y z : Z) : Z := Z.lxor (Z.land x y) (Z.land (w32 (Z.lnot x)) z).
Definition maj (x y z : Z) : Z := Z.lxor (Z.lxor (Z.land x y) (Z.land x z)) (Z.land y z).
Definition bsig0 (x : Z) : Z := Z.lxor (Z.lxor (rotr 2 x) (rotr 13 x)) (rotr 22 x).
Definition bsig1 (x : Z) : Z := Z.lxor (Z.lxor (rotr 6 x) (rotr 11 x)) (rotr 25 x).
Definition ssig0 (x : Z) : Z := Z.lxor (Z.lxor (rotr 7 x) (rotr 18 x)) (Z.shiftr x 3).
Definition ssig1 (x : Z) : Z := Z.lxor (Z.lxor (rotr 17 x) (rotr 19 x)) (Z.shiftr x 10).

(** The primes up to 311 are the first 64 primes. *)
Definition is_prime (p : Z) : bool :=
  forallb (fun d => negb (p mod Z.of_nat d =? 0)) (seq 2 (Z.to_nat p - 2)).

Definition primes : list Z :=
  Eval vm_compute in filter is_prime (map Z.of_nat (seq 2 310)).

(** The integer cube root, found bit by bit from bit [b - 1] down. *)
Fixpoint cube_root (b : nat) (n r : Z) : Z :=
  match b with
  | O => r
  | S b' =>
      let c := r + 2 ^ Z.of_nat b' in
      cube_root b' n (if c * c * c <=? n then c else r)
  end.

(** The round constants: the first 32 bits of the fractional parts of the
    cube roots of the first 64 primes. *)
Definition K : list Z :=
  Eval vm_compute in map (fun p => w32 (cube_root 40 (p * 2 ^ 96) 0)) primes.

Definition regs := (Z * Z * Z * Z * Z * Z * Z * Z)%type.

(** The initial hash value: the first 32 bits of the fractional parts of the
    square roots of the first 8 primes. *)
Definition H0 : regs :=
  Eval vm_compute in
    match map (fun p => w32 (Z.sqrt (p * 2 ^ 64))) (firstn 8 primes) with
    | [a; b; c; d; e; f; g; h] => (a, b, c, d, e, f, g, h)
    | _ => (0, 0, 0, 0, 0, 0, 0, 0)
    end.

(** Message padding: a 1 bit, zeros up to 56 mod 64 bytes, the bit length in
    64 bits, big endian. *)
Fixpoint be_bytes (n : nat) (x : Z) : list Z :=
  match n with
  | O => []
  | S n' => (Z.shiftr x (8 * Z.of_nat n')) mod 256 :: be_bytes n' x
  end.

Definition pad (msg : list Z) : list Z :=
  let len := Z.of_nat (List.length msg) in
  let zeros := Z.to_nat ((55 - len) mod 64) in
  msg ++ [0x80] ++ repeat 0 zeros ++ be_bytes 8 (8 * len).

Definition be_word (bs : list Z) : Z :=
  fold_left (fun acc b => 256 * acc + b) bs 0.

Fixpoint words (n : nat) (bs : list Z) : list Z :=
  match n with
  | O => []
  | S n' => be_word (firstn 4 bs) :: words n' (skipn 4 bs)
  end.

(** The message schedule, extended from 16 to 64 words. *)
Fixpoint extend (n : nat) (w : list Z) : list Z :=
  match n with
  | O => w
  | S n' =>
      let t := List.length w in
      let x := w32 (ssig1 (nth (t - 2) w 0) + nth (t - 7) w 0 +
                    ssig0 (nth (t - 15) w 0) + nth (t - 16) w 0) in
      extend n' (w ++ [x])
  end.

Definition round (r : regs) (kw : Z * Z) : regs :=
  let '(a, b, c, d, e, f, g, h) := r in
  let (k, w) := kw in
  let t1 := w32 (h + bsig1 e + ch e f g + k + w) in
  let t2 := w32 (bsig0 a + maj a b c) in
  (w32 (t1 + t2), a, b, c, w32 (d + t1), e, f, g).

Definition compress (r : regs) (block : list Z) : regs :=
  let w := extend 48 (words 16 block) in
  let '(a, b, c, d, e, f, g, h) := fold_left round (combine K w) r in
  let '(a0, b0, c0, d0, e0, f0, g0, h0) := r in
  (w32 (a0 + a), w32 (b0 + b), w32 (c0 + c), w32 (d0 + d),
   w32 (e0 + e), w32 (f0 + f), w32 (g0 + g), w32 (h0 + h)).

Fixpoint blocks (n : nat) (r : regs) (bs : list Z) : regs :=
  match n with
  | O => r
  | S n' => blocks n' (compress r (firstn 64 bs)) (skipn 64 bs)
  end.

Definition digest (msg : list Z) : list Z :=
  let p := pad (map (fun b => b mod 256) msg) in
  let '(a, b, c, d, e, f, g, h) := blocks (Nat.div (List.length p) 64) H0 p in
  be_bytes 4 a ++ be_bytes 4 b ++ be_bytes 4 c ++ be_bytes 4 d ++
  be_bytes 4 e ++ be_bytes 4 f ++ be_bytes 4 g ++ be_bytes 4 h.

(** void sha256_hash(const uint8_t* data, size_t len, uint8_t* hash): the
    contents of [hash] after the call. *)
Definition sha256_hash (data : list Z) (len : Z) : list Z :=
  digest (firstn (Z.to_nat len) data).

End SHA256.

Module Hasher.

Section Routine.
(** The state of the diagnostic serial channel, and the platform's
    routines, which hash_routine.c only declares.  A serial routine that
    does not return is [None]. *)
Variable chan : Type.
Variable sha256_hash : list Z -> Z -> list Z.
Variable serial_print : string -> chan -> option chan.
Variable serial_print_hex : list Z -> Z -> chan -> option chan.

(** Firmware data (linked at build time). *)
Variable firmware_data : list Z.
Variable firmware_size : Z.

(** int main(void): the value returned and the channel afterwards. *)
Definition main (c : chan) : option (Z * chan) :=
  let hash := sha256_hash firmware_data firmware_size in
  match serial_print "FIRMWARE_HASH:" c with
  | None => None
  | Some c1 =>
      match serial_print_hex hash 32 c1 with
      | None => None
      | Some c2 =>
          match serial_print (String "010"%char EmptyString) c2 with
          | None => None
          | Some c3 => Some (0, c3)
          end
      end
  end.
End Routine.

(** Modelled from the spec: the serial routines are platform-specific and not
    part of the sources.  On a working channel [serial_print] sends the
    characters of its argument and [serial_print_hex] sends two lowercase
    hexadecimal characters for each byte.  The channel state is the list of
    characters sent so far. *)
Definition hex_digit (n : Z) : ascii :=
  nth (Z.to_nat n) (list_ascii_of_string "0123456789abcdef") "0"%char.

Definition hex_byte (b : Z) : list ascii :=
  [hex_digit ((b mod 256) / 16); hex_digit ((b mod 256) mod 16)].

Definition uart_print (str : string) (c : list ascii) : option (list ascii) :=
  Some (c ++ list_ascii_of_string str).

Definition uart_print_hex (data : list Z) (len : Z) (c : list ascii)
    : option (list ascii) :=
  Some (c ++ flat_map hex_byte (firstn (Z.to_nat len) data)).

Definition is_lower_hex (a : ascii) : bool :=
  let n := Z.of_nat (nat_of_ascii a) in
  ((48 <=? n) && (n <=? 57)) || ((97 <=? n) && (n <=? 102)).

(** Modelled from the spec: a channel that can be not ready, with serial
    routines that wait for it (the failure mode the spec describes).  The
    readiness of the channel does not change by waiting. *)
Record polled_chan := mkChan { ready : bool; sent : list ascii }.

Definition polled_print (str : string) (c : polled_chan) : option polled_chan :=
  if ready c then Some (mkChan true (sent c ++ list_ascii_of_string str))
  else None.

Definition polled_print_hex (data : list Z) (len : Z) (c : polled_chan)
    : option polled_chan :=
  if ready c then
    Some (mkChan true (sent c ++ flat_map hex_byte (firstn (Z.to_nat len) data)))
  else None.

End Hasher.

(** ** Vocabulary of the statements *)

(** The state [s] with the pin at [l] and [tr] added to its log. *)
Definition after (s : state) (l : level) (tr : list event) : state :=
  mkState (pin_dir s) l (log s ++ tr).

(** [n] pulses without any wait: HIGH, LOW, HIGH, LOW, ... *)
Fixpoint pulse_train (n : nat) : list event :=
  match n with
  | O => []
  | S n' => Write HIGH :: Write LOW :: pulse_train n'
  end.

(** The pin after [n] pulses. *)
Definition pin_after_pulses (n : nat) (l : level) : level :=
  match n with O => l | S _ => LOW end.

(** A device that enters main with the LED pin still an input and the
    output latch of the pin at [l]. *)
Definition boot (l : level) : state := mkState Input l [].

(** The scenario of the spec: two frames of one LED, here shown for 2 ms and
    1 ms. *)
Definition two_frames : pattern_data :=
  mkPattern 2 1 [[255; 0; 0]; [0; 255; 0]] [2; 1].



(** A device: the state that the firmware templates act on, and the
    characters sent so far on the diagnostic serial channel. *)
Record device := mkDevice {
  firmware : state;
  serial : list ascii
}.

(** A run of a template's main on a device.  The templates contain no call
    of the hash routine or of a serial routine: main acts on the pin and the
    log, and the serial channel is as it was. *)
Definition run_template (main : M Z) (d : device) : option (Z * device) :=
  match main (firmware d) with
  | Ok idx s => Some (idx, mkDevice s (serial d))
  | Fault => None
  | Hang => None
  end.

(** The tables are as the Frame Table Emitter lays them out and fit the
    16-bit length of WS2812_Send. *)
Record tables_ok (pd : pattern_data) : Prop := {
  frames_len : Z.of_nat (List.length (frames pd)) = FRAME_COUNT pd;
  durations_len : List.length (frame_durations pd) = List.length (frames pd);
  rows_len : Forall (fun row => Z.of_nat (List.length row) = NUM_LEDS pd * 3) (frames pd);
  leds_pos : 0 < NUM_LEDS pd;
  leds_fit : NUM_LEDS pd * 3 < 2 ^ 16
}.

(** The byte loop of WS2812_Send, from index [i] for [n] bytes. *)
Definition send_bytes (pData : list Z) (n : nat) (i : Z) : M unit :=
  for_from n i (fun i =>
    b <- read pData i ;;
    let byte := u8 b in
    for_loop 8 8 (fun bit => STM32.send_bit byte bit)).


(** The frame indices [a], [a + 1], ..., [m] of them. *)
Fixpoint zrange (a : Z) (m : nat) : list Z :=
  match m with
  | O => []
  | S m' => a :: zrange (a + 1) m'
  end.

(** What one frame of the STM32 playback loop adds to the log for a frame
    duration [d]: the pulses of the bytes that WS2812_Send is asked for, then
    the passes of the busy loop of delay_ms. *)
Definition STM32_frame_log (pd : pattern_data) (d : Z) : list event :=
  pulse_train (8 * Z.to_nat (u16 (NUM_LEDS pd * 3))) ++
  repeat Busy (Z.to_nat (u16 d) * Z.to_nat 1000).

(** One pass over all frames. *)
Definition STM32_pass_log (pd : pattern_data) : list event :=
  flat_map (STM32_frame_log pd) (frame_durations pd).

(** The sum of the frame durations, each as the 16-bit value that delay_ms
    receives, in milliseconds. *)
Definition total_ms (pd : pattern_data) : Z :=
  fold_right (fun d t => u16 d + t) 0 (frame_durations pd).

(** The tables cut after their first [n] entries. *)
Definition first_frames (n : nat) (pd : pattern_data) : pattern_data :=
  mkPattern (FRAME_COUNT pd) (NUM_LEDS pd)
            (firstn n (frames pd)) (firstn n (frame_durations pd)).

(** The writes to the pin among the operations of a log. *)
Definition writes (tr : list event) : list event := filter is_write tr.

(** A chain of 21846 LEDs: LED_COUNT * 3 is 65538. *)
Definition long_chain : pattern_data :=
  mkPattern 1 21846 [repeat 0 (Z.to_nat 65538)] [1].

(** A pattern without frames. *)
Definition no_frames : pattern_data := mkPattern 0 1 [] [].

(** * Properties *)

(** ** Integers, the monad and the loops *)

Lemma u16_range (x : Z) : 0 <= u16 x < 2 ^ 16.
Proof. unfold u16, wrap. apply Z.mod_pos_bound. reflexivity. Qed.

Lemma u16_small (x : Z) : 0 <= x < 2 ^ 16 -> u16 x = x.
Proof. intros H. unfold u16, wrap. now apply Z.mod_small. Qed.

Lemma after_nil (s : state) : after s (pin s) [] = s.
Proof. destruct s; unfold after; simpl. now rewrite app_nil_r. Qed.

Lemma after_after (s : state) (l1 l2 : level) (t1 t2 : list event) :
  after (after s l1 t1) l2 t2 = after s l2 (t1 ++ t2).
Proof. unfold after; simpl. now rewrite app_assoc. Qed.

Lemma for_loop_in_range (w bound : Z) (body : Z -> M unit) :
  bound < 2 ^ w -> for_loop w bound body = for_from (Z.to_nat bound) 0 body.
Proof.
  intros H. unfold for_loop.
  destruct (2 ^ w <=? bound) eqn:E; [apply Z.leb_le in E; lia | reflexivity].
Qed.

Lemma for_from_emit (e : event) (n : nat) : forall (i : Z) (s : state),
  for_from n i (fun _ => emit e) s = Ok tt (after s (pin s) (repeat e n)).
Proof.
  induction n as [|n IH]; intros i s.
  - simpl. unfold ret. now rewrite after_nil.
  - simpl. unfold bind at 1. unfold emit at 1. rewrite IH.
    unfold after; simpl. now rewrite <- app_assoc.
Qed.

(** A loop whose body adds [tr] to the log and leaves the pin alone. *)
Lemma for_from_const (body : Z -> M unit) (tr : list event)
    (Hbody : forall i s, body i s = Ok tt (after s (pin s) tr)) (n : nat) :
  forall (i : Z) (s : state),
    for_from n i body s = Ok tt (after s (pin s) (List.concat (repeat tr n))).
Proof.
  induction n as [|n IH]; intros i s.
  - simpl. unfold ret. now rewrite after_nil.
  - simpl. unfold bind at 1. rewrite Hbody, IH. now rewrite after_after.
Qed.

Lemma concat_repeat_repeat {A} (a : A) (m n : nat) :
  List.concat (repeat (repeat a m) n) = repeat a (n * m).
Proof.
  induction n as [|n IH]; simpl; [reflexivity|].
  now rewrite IH, repeat_app.
Qed.

Lemma pulse_train_app (m n : nat) :
  pulse_train (m + n) = pulse_train m ++ pulse_train n.
Proof. induction m as [|m IH]; simpl; [reflexivity | now rewrite IH]. Qed.

Lemma pin_after_pulses_add (m n : nat) (l : level) :
  pin_after_pulses n (pin_after_pulses m l) = pin_after_pulses (m + n) l.
Proof. destruct m, n; reflexivity. Qed.

(** ** WS2812_Send *)

(** The test of the bit loop selects the bits of a byte from the most
    significant one down. *)
Lemma send_bit_condition (byte bit : Z) :
  0 <= bit < 8 ->
  negb (Z.land byte (Z.shiftl 1 (7 - bit)) =? 0) = Z.testbit byte (7 - bit).
Proof.
  intros Hbit. rewrite Z.shiftl_1_l.
  destruct (Z.testbit byte (7 - bit)) eqn:Hb.
  - destruct (Z.land byte (2 ^ (7 - bit)) =? 0) eqn:E; [|reflexivity].
    apply Z.eqb_eq in E.
    assert (Hk : Z.testbit (Z.land byte (2 ^ (7 - bit))) (7 - bit) = true).
    { rewrite Z.land_spec, Hb, Z.pow2_bits_eqb, Z.eqb_refl by lia. reflexivity. }
    rewrite E, Z.bits_0 in Hk. discriminate.
  - replace (Z.land byte (2 ^ (7 - bit))) with 0; [reflexivity|].
    symmetry. apply Z.bits_inj'. intros n Hn.
    rewrite Z.land_spec, Z.bits_0, Z.pow2_bits_eqb by lia.
    destruct (Z.eqb_spec (7 - bit) n) as [<- | _].
    + now rewrite Hb.
    + apply andb_false_r.
Qed.

Lemma send_bit_ok (byte bit : Z) (s : state) :
  STM32.send_bit byte bit s = Ok tt (after s LOW (pulse_train 1)).
Proof.
  unfold STM32.send_bit.
  destruct (negb (Z.land byte (Z.shiftl 1 (7 - bit)) =? 0));
    unfold bind, STM32.GPIO_SetBits, STM32.GPIO_ResetBits, set_pin, after; simpl;
    now rewrite <- app_assoc.
Qed.

Lemma send_bits_ok (byte : Z) (n : nat) : forall (i : Z) (s : state),
  for_from n i (fun bit => STM32.send_bit byte bit) s =
  Ok tt (after s (pin_after_pulses n (pin s)) (pulse_train n)).
Proof.
  induction n as [|n IH]; intros i s.
  - simpl. unfold ret. now rewrite after_nil.
  - simpl for_from. unfold bind at 1. rewrite send_bit_ok, IH, after_after.
    destruct n; reflexivity.
Qed.

Lemma send_byte_ok (byte : Z) (s : state) :
  for_loop 8 8 (fun bit => STM32.send_bit byte bit) s =
  Ok tt (after s LOW (pulse_train 8)).
Proof.
  rewrite for_loop_in_range by reflexivity.
  change (Z.to_nat 8) with 8%nat. now rewrite send_bits_ok.
Qed.

Lemma read_ok {A} (p : list A) (i : Z) (s : state) (a : A) :
  0 <= i -> nth_error p (Z.to_nat i) = Some a -> read p i s = Ok a s.
Proof.
  intros Hi Hn. unfold read.
  destruct (i <? 0) eqn:E; [apply Z.ltb_lt in E; lia|]. now rewrite Hn.
Qed.

Lemma read_inv {A} (p : list A) (i : Z) (s s' : state) (a : A) :
  read p i s = Ok a s' ->
  s' = s /\ 0 <= i /\ nth_error p (Z.to_nat i) = Some a.
Proof.
  unfold read, fault, ret. destruct (i <? 0) eqn:E; [discriminate|].
  apply Z.ltb_ge in E.
  destruct (nth_error p (Z.to_nat i)) eqn:Hn; [|discriminate].
  intros H; inversion H; subst. auto.
Qed.

Lemma send_bytes_inv (pData : list Z) (n : nat) : forall (i : Z) (s s' : state),
  0 <= i ->
  send_bytes pData n i s = Ok tt s' ->
  s' = after s (pin_after_pulses n (pin s)) (pulse_train (8 * n)) /\
  (Z.to_nat i + n <= List.length pData \/ n = 0)%nat.
Proof.
  induction n as [|n IH]; intros i s s' Hi H.
  - simpl in H. unfold ret in H. inversion H; subst.
    rewrite after_nil. auto.
  - unfold send_bytes in H. simpl for_from in H. unfold bind at 1 in H.
    unfold bind at 1 in H.
    destruct (read pData i s) as [b s1| |] eqn:Hr; try discriminate.
    apply read_inv in Hr. destruct Hr as (-> & _ & Hn).
    rewrite send_byte_ok in H.
    apply (IH (i + 1)) in H; [|lia].
    destruct H as [-> Hlen]. split.
    + rewrite after_after.
      replace (8 * S n)%nat with (8 + 8 * n)%nat by lia.
      rewrite pulse_train_app. destruct n; reflexivity.
    + left. assert (Z.to_nat i < List.length pData)%nat
        by (apply nth_error_Some; congruence).
      destruct Hlen as [Hlen | ->]; [|lia].
      replace (Z.to_nat (i + 1)) with (S (Z.to_nat i)) in Hlen by lia. lia.
Qed.

Lemma send_bytes_ok (pData : list Z) (n : nat) : forall (i : Z) (s : state),
  0 <= i -> (Z.to_nat i + n <= List.length pData)%nat ->
  send_bytes pData n i s =
  Ok tt (after s (pin_after_pulses n (pin s)) (pulse_train (8 * n))).
Proof.
  induction n as [|n IH]; intros i s Hi Hlen.
  - simpl. unfold ret. now rewrite after_nil.
  - unfold send_bytes. simpl for_from. unfold bind at 1. unfold bind at 1.
    destruct (nth_error pData (Z.to_nat i)) as [b|] eqn:Hn;
      [|apply nth_error_None in Hn; lia].
    rewrite (read_ok _ _ _ b Hi Hn), send_byte_ok.
    fold (send_bytes pData n (i + 1)).
    rewrite IH by lia. rewrite after_after.
    replace (8 * S n)%nat with (8 + 8 * n)%nat by lia.
    rewrite pulse_train_app. destruct n; reflexivity.
Qed.

Lemma WS2812_Send_unfold (pData : list Z) (Len : Z) :
  STM32.WS2812_Send pData Len = send_bytes pData (Z.to_nat (u16 Len)) 0.
Proof.
  unfold STM32.WS2812_Send, send_bytes.
  apply for_loop_in_range. apply u16_range.
Qed.

(** A call that has the bytes it is asked to send completes and adds eight
    pulses a byte to the log; the pulses do not depend on the bytes. *)
Lemma WS2812_Send_ok (pData : list Z) (Len : Z) (s : state) :
  u16 Len <= Z.of_nat (List.length pData) ->
  STM32.WS2812_Send pData Len s =
  Ok tt (after s (pin_after_pulses (Z.to_nat (u16 Len)) (pin s))
               (pulse_train (8 * Z.to_nat (u16 Len)))).
Proof.
  intros H. rewrite WS2812_Send_unfold. apply send_bytes_ok; lia.
Qed.

Lemma WS2812_Send_inv (pData : list Z) (Len : Z) (s s' : state) :
  STM32.WS2812_Send pData Len s = Ok tt s' ->
  s' = after s (pin_after_pulses (Z.to_nat (u16 Len)) (pin s))
             (pulse_train (8 * Z.to_nat (u16 Len))).
Proof.
  rewrite WS2812_Send_unfold. intros H.
  apply send_bytes_inv in H; [tauto | lia].
Qed.

(** The waveform does not depend on the data. *)
Lemma WS2812_Send_data_independent (p q : list Z) (Len : Z) (s : state) :
  u16 Len <= Z.of_nat (List.length p) ->
  u16 Len <= Z.of_nat (List.length q) ->
  STM32.WS2812_Send p Len s = STM32.WS2812_Send q Len s.
Proof. intros Hp Hq. now rewrite !WS2812_Send_ok. Qed.

(** What a decoder sees of a train of pulses without waits: every pulse has
    a HIGH width and a LOW width of 0. *)
Lemma scan_pulse_train (spin_ns : Z) (n : nat) : forall (h l : Z),
  scan spin_ns (InLow h l) (pulse_train n) = (h, l) :: repeat (0, 0) n.
Proof.
  induction n as [|n IH]; intros h l; simpl; [reflexivity|].
  now rewrite IH.
Qed.

Lemma pulses_pulse_train (spin_ns : Z) (n : nat) :
  pulses spin_ns (pulse_train n) = repeat (0, 0) n.
Proof.
  unfold pulses. destruct n as [|n]; simpl; [reflexivity|].
  apply scan_pulse_train.
Qed.

(** The number of pulses of a call: eight for each byte. *)
Lemma WS2812_Send_pulse_count (spin_ns : Z) (pData : list Z) (Len : Z) (s' : state) :
  STM32.WS2812_Send pData Len (boot LOW) = Ok tt s' ->
  List.length (pulses spin_ns (log s')) = (8 * Z.to_nat (u16 Len))%nat.
Proof.
  intros H. apply WS2812_Send_inv in H. subst s'. simpl.
  now rewrite pulses_pulse_train, repeat_length.
Qed.

(** C10: a call of WS2812_Send with Len = 0 writes nothing to the pin and
    leaves the state of the line as it was: the call returns the state it was
    given, log and pin level included. *)
Theorem WS2812_Send_len_zero (pData : list Z) (s : state) :
  STM32.WS2812_Send pData 0 s = Ok tt s.
Proof. reflexivity. Qed.

(** C9, as stated, fails: with Len = 0 and the line HIGH before the call, the
    call completes and the line is still HIGH. *)
Lemma WS2812_Send_idle_line_stays_high :
  exists s', STM32.WS2812_Send [] 0 (boot HIGH) = Ok tt s' /\ pin s' = HIGH.
Proof. exists (boot HIGH). split; reflexivity. Qed.

(** C9, amended: every bit-pulse of WS2812_Send is a write of HIGH followed by
    a write of LOW, so a completed call that sent at least one byte, or that
    found the line LOW, leaves the line LOW. *)
Theorem WS2812_Send_leaves_line_low (pData : list Z) (Len : Z) (s s' : state) :
  STM32.WS2812_Send pData Len s = Ok tt s' ->
  0 < u16 Len \/ pin s = LOW ->
  pin s' = LOW /\
  log s' = log s ++ pulse_train (8 * Z.to_nat (u16 Len)).
Proof.
  intros H Hpre. apply WS2812_Send_inv in H. subst s'. simpl. split; [|reflexivity].
  destruct Hpre as [Hlen | Hlow].
  - destruct (Z.to_nat (u16 Len)) eqn:E; [lia | reflexivity].
  - destruct (Z.to_nat (u16 Len)); [exact Hlow | reflexivity].
Qed.

Lemma WS2812_Send_leaves_line_low_witness :
  exists s',
    STM32.WS2812_Send [255] 1 (boot HIGH) = Ok tt s' /\
    pin s' = LOW /\ log s' = log (boot HIGH) ++ pulse_train 8.
Proof.
  exists (after (boot HIGH) LOW (pulse_train 8)).
  split; [vm_compute; reflexivity|].
  apply (WS2812_Send_leaves_line_low [255] 1 (boot HIGH)).
  - vm_compute; reflexivity.
  - left. vm_compute; reflexivity.
Defined.

(** The reference decoder recovers a buffer from the waveform that the
    comments of WS2812_Send describe. *)
Example decode_commented_waveform :
  decode 50 (flat_map commented_pulse (map (wire_bit [255; 0; 165]) (seq 0 24))) =
  Some [255; 0; 165].
Proof. vm_compute. reflexivity. Qed.

(** C1, evaluated on the one-byte buffer 0xFF: the call emits 8 pulses, one
    for each bit, all bits are 1, and no pulse is the 1-encoding: every pulse
    has a HIGH width and a LOW width of 0, since the waits of the two branches
    are comments.  The call leaves the same log as for the buffer 0x00. *)
Theorem WS2812_Send_ones_not_one_encoded (spin_ns : Z) :
  exists s',
    STM32.WS2812_Send [255] 1 (boot LOW) = Ok tt s' /\
    pulses spin_ns (log s') = repeat (0, 0) 8 /\
    map (wire_bit [255]) (seq 0 8) = repeat true 8 /\
    map classify (pulses spin_ns (log s')) = repeat None 8 /\
    STM32.WS2812_Send [0] 1 (boot LOW) = Ok tt s'.
Proof.
  exists (after (boot LOW) LOW (pulse_train 8)).
  split; [|split; [|split; [|split]]]; vm_compute; reflexivity.
Qed.

(** C8, evaluated on the buffer 0xFF 0x00 0xA5: the reference decoder finds no
    bit in the waveform, which is also the waveform of the buffer 0 0 0. *)
Theorem WS2812_Send_roundtrip_fails (spin_ns : Z) :
  exists s',
    STM32.WS2812_Send [255; 0; 165] 3 (boot LOW) = Ok tt s' /\
    decode spin_ns (log s') = None /\
    STM32.WS2812_Send [0; 0; 0] 3 (boot LOW) = Ok tt s'.
Proof.
  exists (after (boot LOW) LOW (pulse_train 24)).
  split; [|split]; vm_compute; reflexivity.
Qed.

(** ** delay_ms and the elapsed time *)

Lemma STM32_delay_ms_ok (ms : Z) (s : state) :
  STM32.delay_ms ms s =
  Ok tt (after s (pin s) (repeat Busy (Z.to_nat (u16 ms) * Z.to_nat 1000))).
Proof.
  unfold STM32.delay_ms.
  rewrite for_loop_in_range by apply u16_range.
  rewrite (for_from_const _ (repeat Busy (Z.to_nat 1000))).
  - now rewrite concat_repeat_repeat.
  - intros i s1. rewrite for_loop_in_range by reflexivity.
    apply for_from_emit.
Qed.

Lemma elapsed_repeat_Busy (spin_ns : Z) (n : nat) :
  elapsed spin_ns (repeat Busy n) = spin_ns * Z.of_nat n.
Proof.
  induction n as [|n IH]; [simpl; lia|].
  change (elapsed spin_ns (repeat Busy (S n)))
    with (spin_ns + elapsed spin_ns (repeat Busy n)).
  rewrite IH. lia.
Qed.

Lemma quiet_repeat_Busy (n : nat) : quiet (repeat Busy n) = true.
Proof. induction n as [|n IH]; [reflexivity | exact IH]. Qed.

(** ** The playback loop *)

Lemma playback_loop_app (w FC : Z) (body : Z -> M unit) (n m : nat) :
  forall (idx : Z) (s : state),
    playback_loop w FC body (n + m) idx s =
    (idx' <- playback_loop w FC body n idx ;; playback_loop w FC body m idx') s.
Proof.
  induction n as [|n IH]; intros idx s; [reflexivity|].
  simpl. destruct (idx <? FC).
  - unfold bind. destruct (body idx s) as [[] s1| |]; try reflexivity.
    rewrite IH. reflexivity.
  - apply IH.
Qed.

Lemma playback_loop_index (w FC : Z) (body : Z -> M unit) (n : nat) :
  forall (idx idx' : Z) (s s' : state),
    0 <= w -> 0 <= idx ->
    playback_loop w FC body n idx s = Ok idx' s' -> 0 <= idx'.
Proof.
  induction n as [|n IH]; intros idx idx' s s' Hw Hidx H.
  - simpl in H. unfold ret in H. inversion H; subst. exact Hidx.
  - simpl in H. destruct (idx <? FC).
    + unfold bind in H. destruct (body idx s) as [[] s1| |]; try discriminate.
      eapply IH; [exact Hw| |exact H]. unfold wrap. apply Z.mod_pos_bound.
      apply Z.pow_pos_nonneg; lia.
    + eapply IH; [exact Hw| |exact H]. lia.
Qed.

(** ** stm32f407_template.c: one frame of the playback loop *)

Lemma tables_row (pd : pattern_data) (idx : Z) :
  tables_ok pd -> 0 <= idx < FRAME_COUNT pd ->
  exists row d,
    nth_error (frames pd) (Z.to_nat idx) = Some row /\
    nth_error (frame_durations pd) (Z.to_nat idx) = Some d /\
    In d (frame_durations pd) /\
    Z.of_nat (List.length row) = NUM_LEDS pd * 3.
Proof.
  intros [Hfc Hdl Hrows Hpos Hfit] Hidx.
  assert (Hlt : (Z.to_nat idx < List.length (frames pd))%nat) by lia.
  destruct (nth_error (frames pd) (Z.to_nat idx)) as [row|] eqn:Hrow;
    [|apply nth_error_None in Hrow; lia].
  destruct (nth_error (frame_durations pd) (Z.to_nat idx)) as [d|] eqn:Hd;
    [|apply nth_error_None in Hd; lia].
  exists row, d. repeat split.
  - eapply nth_error_In; exact Hd.
  - rewrite Forall_forall in Hrows. apply Hrows.
    eapply nth_error_In; exact Hrow.
Qed.

Lemma STM32_frame_body_ok (pd : pattern_data) (idx : Z) (s : state) :
  tables_ok pd -> 0 <= idx < FRAME_COUNT pd ->
  exists row d,
    nth_error (frames pd) (Z.to_nat idx) = Some row /\
    nth_error (frame_durations pd) (Z.to_nat idx) = Some d /\
    In d (frame_durations pd) /\
    STM32.WS2812_Send row (STM32.LED_COUNT pd * 3) s =
      Ok tt (after s LOW (pulse_train (8 * Z.to_nat (NUM_LEDS pd * 3)))) /\
    STM32.frame_body pd idx s =
      Ok tt (after s LOW (pulse_train (8 * Z.to_nat (NUM_LEDS pd * 3)) ++
                          repeat Busy (Z.to_nat (u16 d) * Z.to_nat 1000))).
Proof.
  intros Hok Hidx.
  destruct (tables_row pd idx Hok Hidx) as (row & d & Hrow & Hd & Hin & Hlen).
  destruct Hok as [Hfc Hdl Hrows Hpos Hfit].
  assert (Hu : u16 (NUM_LEDS pd * 3) = NUM_LEDS pd * 3)
    by (apply u16_small; lia).
  assert (Hsend : STM32.WS2812_Send row (STM32.LED_COUNT pd * 3) s =
                  Ok tt (after s LOW (pulse_train (8 * Z.to_nat (NUM_LEDS pd * 3))))).
  { unfold STM32.LED_COUNT. rewrite WS2812_Send_ok by (rewrite Hu; lia).
    rewrite Hu. destruct (Z.to_nat (NUM_LEDS pd * 3)) eqn:E; [lia | reflexivity]. }
  exists row, d. repeat split; try assumption.
  unfold STM32.frame_body. unfold bind at 1.
  rewrite (read_ok _ _ _ row) by (lia || assumption).
  unfold bind at 1.
  rewrite (read_ok _ _ _ d) by (lia || assumption).
  cbv zeta. unfold bind. rewrite Hsend, STM32_delay_ms_ok, after_after.
  rewrite (u16_small (u16 d)) by apply u16_range.
  reflexivity.
Qed.




(** The playback loop of the STM32 template, one condition check at a time:
    below FRAME_COUNT it sends the frame's buffer, waits for the frame's
    duration and increments the index; at FRAME_COUNT it goes back to 0. *)
Lemma STM32_playback_step (pd : pattern_data) (n : nat) (s0 s : state) (idx : Z) :
  tables_ok pd ->
  STM32.playback pd n 0 s0 = Ok idx s ->
  (idx < FRAME_COUNT pd ->
   exists row d,
     nth_error (frames pd) (Z.to_nat idx) = Some row /\
     nth_error (frame_durations pd) (Z.to_nat idx) = Some d /\
     STM32.playback pd (S n) 0 s0 =
       (STM32.WS2812_Send row (STM32.LED_COUNT pd * 3) ;;;
        STM32.delay_ms (u16 d) ;;;
        ret (u16 (idx + 1))) s /\
     exists s', STM32.playback pd (S n) 0 s0 = Ok (u16 (idx + 1)) s') /\
  (FRAME_COUNT pd <= idx -> STM32.playback pd (S n) 0 s0 = Ok 0 s).
Proof.
  intros Hok Hrun.
  assert (H0 : 0 <= idx).
  { unfold STM32.playback in Hrun.
    eapply playback_loop_index; [| |exact Hrun]; lia. }
  assert (Hstep : STM32.playback pd (S n) 0 s0 = STM32.playback pd 1 idx s).
  { unfold STM32.playback in *. rewrite <- Nat.add_1_r, playback_loop_app.
    unfold bind at 1. rewrite Hrun. reflexivity. }
  rewrite Hstep. unfold STM32.playback. simpl.
  split; intros Hidx.
  - destruct (idx <? FRAME_COUNT pd) eqn:E; [|apply Z.ltb_ge in E; lia].
    destruct (STM32_frame_body_ok pd idx s Hok (conj H0 Hidx))
      as (row & d & Hrow & Hd & Hin & Hsend & Hbody).
    exists row, d. split; [exact Hrow|]. split; [exact Hd|].
    unfold bind. rewrite Hbody, Hsend, STM32_delay_ms_ok, after_after.
    rewrite (u16_small (u16 d)) by apply u16_range.
    split; [reflexivity|]. eexists. reflexivity.
  - destruct (idx <? FRAME_COUNT pd) eqn:E; [apply Z.ltb_lt in E; lia|].
    reflexivity.
Qed.

(** The STM32 playback loop never faults and never stops: after any number
    of condition checks it is at the index the cyclic order 0, 1, ...,
    FRAME_COUNT - 1, (back to 0) gives. *)
Lemma STM32_playback_cycles (pd : pattern_data) (s0 : state) :
  tables_ok pd -> FRAME_COUNT pd < 2 ^ 16 ->
  forall n : nat, exists s,
    STM32.playback pd n 0 s0 = Ok (Z.of_nat n mod (FRAME_COUNT pd + 1)) s.
Proof.
  intros Hok Hfit n.
  assert (Hfc : 0 <= FRAME_COUNT pd) by (destruct Hok; lia).
  induction n as [|n [s IH]].
  - exists s0. reflexivity.
  - pose proof (Z.mod_pos_bound (Z.of_nat n) (FRAME_COUNT pd + 1) ltac:(lia)) as Hb.
    pose proof (Z.div_mod (Z.of_nat n) (FRAME_COUNT pd + 1) ltac:(lia)) as Hdm.
    destruct (STM32_playback_step pd n s0 s _ Hok IH) as [Hlt Hge].
    destruct (Z_lt_le_dec (Z.of_nat n mod (FRAME_COUNT pd + 1)) (FRAME_COUNT pd))
      as [Hc | Hc].
    + destruct (Hlt Hc) as (row & d & _ & _ & _ & s' & Hs'). exists s'.
      rewrite Hs'. f_equal. rewrite u16_small by lia.
      apply (Z.mod_unique _ _ (Z.of_nat n / (FRAME_COUNT pd + 1))); lia.
    + exists s. rewrite (Hge Hc). f_equal.
      apply (Z.mod_unique _ _ (Z.of_nat n / (FRAME_COUNT pd + 1) + 1)); lia.
Qed.

(** ** The Nuvoton and PIC templates *)

Lemma for_from_skip (n : nat) : forall (i : Z) (s : state),
  for_from n i (fun _ => ret tt) s = Ok tt s.
Proof. induction n as [|n IH]; intros i s; [reflexivity | apply IH]. Qed.

Lemma for_loop_skip_inv (w bound : Z) (s s' : state) :
  for_loop w bound (fun _ => ret tt) s = Ok tt s' -> s' = s.
Proof.
  unfold for_loop. destruct (2 ^ w <=? bound); [discriminate|].
  rewrite for_from_skip. congruence.
Qed.

Lemma Nuvoton_delay_ms_ok (ms : Z) (s : state) :
  Nuvoton.delay_ms ms s =
  Ok tt (after s (pin s) (repeat (SysTickDelay 1000) (Z.to_nat (u16 ms)))).
Proof.
  unfold Nuvoton.delay_ms.
  rewrite for_loop_in_range by apply u16_range.
  apply for_from_emit.
Qed.

Lemma PIC_delay_ms_ok (ms : Z) (s : state) :
  PIC.delay_ms ms s =
  Ok tt (after s (pin s) (repeat Busy (Z.to_nat (u16 ms) * Z.to_nat 1000))).
Proof.
  unfold PIC.delay_ms.
  rewrite for_loop_in_range by apply u16_range.
  rewrite (for_from_const _ (repeat Busy (Z.to_nat 1000))).
  - now rewrite concat_repeat_repeat.
  - intros i s1. rewrite for_loop_in_range by reflexivity.
    apply for_from_emit.
Qed.

Lemma filter_write_repeat (e : event) (n : nat) :
  is_write e = false -> filter is_write (repeat e n) = [].
Proof.
  intros He. induction n as [|n IH]; [reflexivity|].
  simpl. now rewrite He.
Qed.

(** One step through a frame body: the next read of a table, or the empty
    loop over the LEDs, either ends the run or leaves the state as it is. *)
Ltac step_frame_body :=
  match goal with
  | |- context [read ?p ?i ?s] =>
      let H := fresh "Hread" in
      destruct (read p i s) as [? ?| |] eqn:H; try discriminate;
      apply read_inv in H; destruct H as (-> & _)
  | |- context [for_loop ?w ?n (fun _ => ret tt) ?s] =>
      let H := fresh "Hloop" in
      destruct (for_loop w n (fun _ => ret tt) s) as [[] ?| |] eqn:H;
      try discriminate;
      apply for_loop_skip_inv in H; subst
  end.

(** A frame of the Nuvoton template writes nothing to the pin. *)
Lemma Nuvoton_frame_body_no_write (pd : pattern_data) (idx : Z) (s s' : state) :
  Nuvoton.frame_body pd idx s = Ok tt s' ->
  pin s' = pin s /\ filter is_write (log s') = filter is_write (log s).
Proof.
  unfold Nuvoton.frame_body, bind. repeat step_frame_body.
  rewrite Nuvoton_delay_ms_ok. intros H; inversion H; subst; simpl.
  split; [reflexivity|].
  rewrite filter_app, filter_write_repeat by reflexivity. apply app_nil_r.
Qed.

(** A frame of the PIC template writes nothing to the pin. *)
Lemma PIC_frame_body_no_write (pd : pattern_data) (idx : Z) (s s' : state) :
  PIC.frame_body pd idx s = Ok tt s' ->
  pin s' = pin s /\ filter is_write (log s') = filter is_write (log s).
Proof.
  unfold PIC.frame_body, bind. repeat step_frame_body.
  rewrite PIC_delay_ms_ok. intros H; inversion H; subst; simpl.
  split; [reflexivity|].
  rewrite filter_app, filter_write_repeat by reflexivity. apply app_nil_r.
Qed.

(** A playback loop whose frames write nothing writes nothing, however long
    it runs. *)
Lemma playback_loop_no_write (w FC : Z) (body : Z -> M unit)
    (Hbody : forall i s s', body i s = Ok tt s' ->
       pin s' = pin s /\ filter is_write (log s') = filter is_write (log s))
    (n : nat) :
  forall (idx idx' : Z) (s s' : state),
    playback_loop w FC body n idx s = Ok idx' s' ->
    pin s' = pin s /\ filter is_write (log s') = filter is_write (log s).
Proof.
  induction n as [|n IH]; intros idx idx' s s' H.
  - simpl in H. unfold ret in H. inversion H; subst. auto.
  - simpl in H. destruct (idx <? FC).
    + unfold bind in H. destruct (body idx s) as [[] s1| |] eqn:Hb; try discriminate.
      apply Hbody in Hb. apply IH in H. destruct Hb, H. split; congruence.
    + eapply IH; exact H.
Qed.

Lemma Nuvoton_playback_no_write (pd : pattern_data) (n : nat)
    (idx idx' : Z) (s s' : state) :
  Nuvoton.playback pd n idx s = Ok idx' s' ->
  pin s' = pin s /\ filter is_write (log s') = filter is_write (log s).
Proof. apply playback_loop_no_write, Nuvoton_frame_body_no_write. Qed.

Lemma PIC_playback_no_write (pd : pattern_data) (n : nat)
    (idx idx' : Z) (s s' : state) :
  PIC.playback pd n idx s = Ok idx' s' ->
  pin s' = pin s /\ filter is_write (log s') = filter is_write (log s).
Proof. apply playback_loop_no_write, PIC_frame_body_no_write. Qed.

(** The frame index of the PIC template has 8 bits: with more than 255
    frames the loop is back at frame 0 after frame 255. *)
Example PIC_frame_index_wraps (s : state) :
  PIC.playback (mkPattern 300 1 (repeat [0; 0; 0] 300) (repeat 0 300)) 256 0 s =
  Ok 0 s.
Proof.
  destruct s as [d l tr]. vm_compute. reflexivity.
Qed.

(** C3, evaluated on the two-frame pattern for one pass of the playback loop
    (three condition checks): the Nuvoton and PIC templates wait for the two
    durations and never call a protocol encoder, the only write to the pin is
    the one of INIT; the STM32 template sends each frame's 3 bytes (24 pulses)
    and then waits for its duration. *)
Theorem playback_pass_two_frames :
  Nuvoton.main two_frames 3 (boot LOW) =
    Ok 0 (mkState Output LOW (Write LOW :: repeat (SysTickDelay 1000) 3)) /\
  PIC.main two_frames 3 (boot LOW) =
    Ok 0 (mkState Output LOW (Write LOW :: repeat Busy 3000)) /\
  STM32.main two_frames 3 (boot LOW) =
    Ok 0 (mkState Output LOW
            (pulse_train 24 ++ repeat Busy 2000 ++
             pulse_train 24 ++ repeat Busy 1000)).
Proof. split; [|split]; vm_compute; reflexivity. Qed.

(** C7, evaluated on a device whose pin latch is HIGH at boot: INIT of the
    STM32 template makes the pin an output and writes nothing, so PLAYBACK is
    entered with the line HIGH; INIT of the Nuvoton and PIC templates writes
    LOW. *)
Theorem init_line_level :
  STM32.init (boot HIGH) = Ok tt (mkState Output HIGH []) /\
  STM32.main two_frames 0 (boot HIGH) = Ok 0 (mkState Output HIGH []) /\
  Nuvoton.init (boot HIGH) = Ok tt (mkState Output LOW [Write LOW]) /\
  PIC.init (boot HIGH) = Ok tt (mkState Output LOW [Write LOW]).
Proof. split; [|split; [|split]]; reflexivity. Qed.

(** ** Frame Table Emitter *)

Lemma forallb_false_ex {A} (f : A -> bool) (l : list A) :
  forallb f l = false -> exists x, In x l /\ f x = false.
Proof.
  induction l as [|a l IH]; simpl; [discriminate|].
  destruct (f a) eqn:Fa; simpl.
  - intros H. destruct (IH H) as (x & Hin & Hx). exists x. auto.
  - intros _. exists a. auto.
Qed.

(** C4: the Frame Table Emitter produces no tables exactly for the Patterns
    that are empty or have a frame whose pixel count differs from LED_COUNT;
    every other Pattern is accepted. *)
Theorem emit_tables_rejects (p : FrameTable.Pattern) :
  FrameTable.emit_tables p = None <->
  FrameTable.pat_frames p = [] \/
  exists f, In f (FrameTable.pat_frames p) /\
            Z.of_nat (List.length (FrameTable.pixels f)) <> FrameTable.led_count p.
Proof.
  unfold FrameTable.emit_tables. split.
  - destruct (FrameTable.pat_frames p) as [|f0 fs] eqn:Hf; [auto|].
    destruct (forallb _ _) eqn:Hall; [discriminate|]. intros _. right.
    apply forallb_false_ex in Hall. destruct Hall as (f & Hin & Hbad).
    exists f. split; [exact Hin|].
    unfold FrameTable.frame_ok in Hbad. now apply Z.eqb_neq in Hbad.
  - intros [Hnil | (f & Hin & Hbad)].
    + now rewrite Hnil.
    + destruct (FrameTable.pat_frames p) as [|f0 fs] eqn:Hf; [reflexivity|].
      destruct (forallb _ _) eqn:Hall; [|reflexivity].
      rewrite forallb_forall in Hall. specialize (Hall f Hin).
      unfold FrameTable.frame_ok in Hall. apply Z.eqb_eq in Hall. contradiction.
Qed.

Lemma frame_bytes_length (f : FrameTable.Frame) :
  List.length (FrameTable.frame_bytes f) = (3 * List.length (FrameTable.pixels f))%nat.
Proof.
  unfold FrameTable.frame_bytes.
  induction (FrameTable.pixels f) as [|px l IH]; [reflexivity|].
  simpl. rewrite IH. lia.
Qed.

(** The tables of an accepted Pattern: FRAME_COUNT rows and durations, each
    row of LED_COUNT * 3 bytes. *)
Lemma emit_tables_shape (p : FrameTable.Pattern) (pd : pattern_data) :
  FrameTable.emit_tables p = Some pd ->
  0 < FRAME_COUNT pd /\
  Z.of_nat (List.length (frames pd)) = FRAME_COUNT pd /\
  List.length (frame_durations pd) = List.length (frames pd) /\
  Forall (fun row => Z.of_nat (List.length row) = NUM_LEDS pd * 3) (frames pd).
Proof.
  unfold FrameTable.emit_tables.
  destruct (FrameTable.pat_frames p) as [|f0 fs] eqn:Hf; [discriminate|].
  destruct (forallb _ _) eqn:Hall; [|discriminate].
  intros H; inversion H; subst; clear H. simpl.
  rewrite !length_map. repeat split; try lia.
  rewrite forallb_forall in Hall.
  apply Forall_forall. intros row Hrow.
  change (FrameTable.frame_bytes f0 :: map FrameTable.frame_bytes fs)
    with (map FrameTable.frame_bytes (f0 :: fs)) in Hrow.
  apply in_map_iff in Hrow. destruct Hrow as (f & <- & Hin).
  specialize (Hall f Hin). unfold FrameTable.frame_ok in Hall.
  apply Z.eqb_eq in Hall. rewrite frame_bytes_length. lia.
Qed.

(** The scenario of the spec. *)
Example emit_tables_scenario :
  FrameTable.emit_tables
    (FrameTable.mkPat
       [FrameTable.mkFrame [FrameTable.mkPixel 255 0 0] 500;
        FrameTable.mkFrame [FrameTable.mkPixel 0 255 0] 500] 1) =
  Some (mkPattern 2 1 [[255; 0; 0]; [0; 255; 0]] [500; 500]).
Proof. reflexivity. Qed.

(** ** hash_routine.c *)

Lemma digest_length (msg : list Z) : List.length (SHA256.digest msg) = 32%nat.
Proof.
  unfold SHA256.digest.
  destruct (SHA256.blocks _ _ _) as [[[[[[[a b] c] d] e] f] g] h].
  reflexivity.
Qed.

Lemma hex_digit_lower (n : Z) :
  0 <= n < 16 -> Hasher.is_lower_hex (Hasher.hex_digit n) = true.
Proof.
  intros H. unfold Hasher.hex_digit.
  assert (Hall : forallb Hasher.is_lower_hex
                   (list_ascii_of_string "0123456789abcdef") = true)
    by reflexivity.
  rewrite forallb_forall in Hall. apply Hall, nth_In.
  change (List.length (list_ascii_of_string "0123456789abcdef")) with 16%nat.
  lia.
Qed.

Lemma hex_bytes_shape (l : list Z) :
  List.length (flat_map Hasher.hex_byte l) = (2 * List.length l)%nat /\
  forallb Hasher.is_lower_hex (flat_map Hasher.hex_byte l) = true.
Proof.
  induction l as [|b l [IHlen IHhex]]; [split; reflexivity|].
  split.
  - simpl. rewrite IHlen. lia.
  - change (flat_map Hasher.hex_byte (b :: l))
      with (Hasher.hex_byte b ++ flat_map Hasher.hex_byte l).
    rewrite forallb_app, IHhex. unfold Hasher.hex_byte. simpl forallb.
    pose proof (Z.mod_pos_bound b 256 ltac:(lia)) as Hb.
    rewrite !hex_digit_lower; [reflexivity | |].
    + apply Z.mod_pos_bound. lia.
    + split; [apply Z.div_pos; lia | apply Z.div_lt_upper_bound; lia].
Qed.

Lemma lower_hex_no_newline (l : list ascii) :
  forallb Hasher.is_lower_hex l = true ->
  count_occ ascii_dec l "010"%char = 0%nat.
Proof.
  induction l as [|a l IH]; [reflexivity|].
  simpl forallb. intros H. apply andb_prop in H. destruct H as [Ha Hl].
  simpl count_occ. destruct (ascii_dec a "010"%char) as [-> | _].
  - discriminate Ha.
  - now apply IH.
Qed.

(** C5, as stated, fails: the emission is not part of the boot of a
    firmware.  The firmware of each template goes from boot into PLAYBACK,
    here through its first frame, with nothing sent on the serial channel;
    the hash routine is a program of its own that sends its line and
    returns. *)
Lemma templates_send_no_hash_line :
  run_template (STM32.main two_frames 1) (mkDevice (boot LOW) []) =
    Some (1, mkDevice (mkState Output LOW (pulse_train 24 ++ repeat Busy 2000)) []) /\
  run_template (Nuvoton.main two_frames 1) (mkDevice (boot LOW) []) =
    Some (1, mkDevice (mkState Output LOW (Write LOW :: repeat (SysTickDelay 1000) 2)) []) /\
  run_template (PIC.main two_frames 1) (mkDevice (boot LOW) []) =
    Some (1, mkDevice (mkState Output LOW (Write LOW :: repeat Busy 2000)) []) /\
  exists line,
    Hasher.main (list ascii) SHA256.sha256_hash Hasher.uart_print
      Hasher.uart_print_hex [] 0 [] = Some (0, line).
Proof.
  split; [vm_compute; reflexivity|].
  split; [vm_compute; reflexivity|].
  split; [vm_compute; reflexivity|].
  eexists. vm_compute. reflexivity.
Qed.

(** C5, amended: each run of the hash routine on a working channel sends
    exactly one line and returns 0: the characters FIRMWARE_HASH:, then the 64
    lowercase hexadecimal characters of the 32-byte SHA-256 digest of the
    whole firmware image, then a newline, the only newline sent; nothing else
    is sent, before or after.  The routine is not part of the firmware of a
    template: a run of a template's main, however long, leaves the serial
    channel as it was. *)
Theorem hasher_output (image : list Z) (c : list ascii) :
  let hex := flat_map Hasher.hex_byte (SHA256.digest image) in
  Hasher.main (list ascii) SHA256.sha256_hash Hasher.uart_print
    Hasher.uart_print_hex image (Z.of_nat (List.length image)) c =
    Some (0, c ++ list_ascii_of_string "FIRMWARE_HASH:" ++ hex ++ ["010"%char]) /\
  List.length (SHA256.digest image) = 32%nat /\
  List.length hex = 64%nat /\
  forallb Hasher.is_lower_hex hex = true /\
  count_occ ascii_dec
    (list_ascii_of_string "FIRMWARE_HASH:" ++ hex ++ ["010"%char]) "010"%char = 1%nat /\
  forall (pd : pattern_data) (fuel : nat) (d : device),
    let unchanged (r : option (Z * device)) :=
      match r with
      | Some (_, d') => serial d' = serial d
      | None => True
      end in
    unchanged (run_template (STM32.main pd fuel) d) /\
    unchanged (run_template (Nuvoton.main pd fuel) d) /\
    unchanged (run_template (PIC.main pd fuel) d).
Proof.
  intros hex. subst hex.
  destruct (hex_bytes_shape (SHA256.digest image)) as [Hlen Hhex].
  pose proof (digest_length image) as Hd.
  split; [|split; [exact Hd | split; [lia | split; [exact Hhex|split]]]].
  - unfold Hasher.main, Hasher.uart_print, Hasher.uart_print_hex, SHA256.sha256_hash.
    rewrite Nat2Z.id, firstn_all.
    change (Z.to_nat 32) with 32%nat. rewrite <- Hd at 1. rewrite firstn_all.
    rewrite <- !app_assoc. reflexivity.
  - rewrite !count_occ_app, (lower_hex_no_newline _ Hhex). reflexivity.
  - intros pd fuel d unchanged. subst unchanged. unfold run_template.
    split; [|split].
    + destruct (STM32.main pd fuel (firmware d)); exact I || reflexivity.
    + destruct (Nuvoton.main pd fuel (firmware d)); exact I || reflexivity.
    + destruct (PIC.main pd fuel (firmware d)); exact I || reflexivity.
Qed.

(** The digest of the empty image is the published test vector. *)
Example empty_image_test_vector :
  Hasher.main (list ascii) SHA256.sha256_hash Hasher.uart_print
    Hasher.uart_print_hex [] 0 [] =
  Some (0, list_ascii_of_string
    "FIRMWARE_HASH:e3b0c44298fc1c149afbf4c8996fb92427ae41e4649b934ca495991b7852b855
").
Proof. vm_compute. reflexivity. Qed.

(** C6, as stated, fails: on a channel that is not ready, with serial
    routines that wait for the channel, the hash routine never returns. *)
Lemma hasher_blocks_on_unready_channel :
  Hasher.main Hasher.polled_chan SHA256.sha256_hash Hasher.polled_print
    Hasher.polled_print_hex [] 0 (Hasher.mkChan false []) = None.
Proof. reflexivity. Qed.

(** C6, amended: the hash routine has no check of the channel and no retry.
    It calls serial_print, serial_print_hex and serial_print once each, in this
    order, each on the channel the previous call left, and it returns, with
    0, exactly when each of the three calls returns. *)
Theorem hasher_returns_iff (chan : Type) (sha256_hash : list Z -> Z -> list Z)
    (serial_print : string -> chan -> option chan)
    (serial_print_hex : list Z -> Z -> chan -> option chan)
    (firmware_data : list Z) (firmware_size : Z) (c : chan) (r : Z * chan) :
  Hasher.main chan sha256_hash serial_print serial_print_hex
    firmware_data firmware_size c = Some r <->
  exists c1 c2 c3,
    serial_print "FIRMWARE_HASH:"%string c = Some c1 /\
    serial_print_hex (sha256_hash firmware_data firmware_size) 32 c1 = Some c2 /\
    serial_print (String "010"%char EmptyString) c2 = Some c3 /\
    r = (0, c3).
Proof.
  unfold Hasher.main. split.
  - destruct (serial_print "FIRMWARE_HASH:"%string c) as [c1|] eqn:H1; [|discriminate].
    destruct (serial_print_hex _ 32 c1) as [c2|] eqn:H2; [|discriminate].
    destruct (serial_print _ c2) as [c3|] eqn:H3; [|discriminate].
    intros H; inversion H; subst. exists c1, c2, c3. auto.
  - intros (c1 & c2 & c3 & H1 & H2 & H3 & ->).
    now rewrite H1, H2, H3.
Qed.

(** * Further properties of the templates *)

(** ** delay_ms *)

Lemma elapsed_repeat_SysTick (spin_ns us : Z) (n : nat) :
  elapsed spin_ns (repeat (SysTickDelay us) n) = 1000 * us * Z.of_nat n.
Proof.
  induction n as [|n IH]; [simpl; lia|].
  change (elapsed spin_ns (repeat (SysTickDelay us) (S n)))
    with (1000 * us + elapsed spin_ns (repeat (SysTickDelay us) n)).
  rewrite IH. lia.
Qed.

Lemma quiet_repeat_SysTick (us : Z) (n : nat) :
  quiet (repeat (SysTickDelay us) n) = true.
Proof. induction n as [|n IH]; [reflexivity | exact IH]. Qed.

(** X1: delay_ms of the STM32 template always returns, writes nothing to the
    pin and leaves its level as it was; it runs 1000 passes of the busy loop
    for each millisecond of its 16-bit argument, so the time it takes is
    (ms mod 65536) * 1000 passes. *)
Theorem STM32_delay_ms_duration (spin_ns ms : Z) (s : state) :
  exists gap,
    STM32.delay_ms ms s = Ok tt (after s (pin s) gap) /\
    quiet gap = true /\
    elapsed spin_ns gap = (ms mod 2 ^ 16) * 1000 * spin_ns.
Proof.
  exists (repeat Busy (Z.to_nat (u16 ms) * Z.to_nat 1000)).
  split; [apply STM32_delay_ms_ok|]. split; [apply quiet_repeat_Busy|].
  rewrite elapsed_repeat_Busy, Nat2Z.inj_mul.
  pose proof (u16_range ms) as Hr.
  rewrite !Z2Nat.id by lia. unfold u16, wrap. lia.
Qed.

(** X2: two delays in a row are one delay of the sum, as long as the sum fits
    the 16-bit argument. *)
Theorem STM32_delay_ms_add (a b : Z) (s : state) :
  0 <= a -> 0 <= b -> a + b < 2 ^ 16 ->
  (STM32.delay_ms a ;;; STM32.delay_ms b) s = STM32.delay_ms (a + b) s.
Proof.
  intros Ha Hb Hab. unfold bind.
  rewrite !STM32_delay_ms_ok, after_after, <- repeat_app.
  rewrite !u16_small by lia. simpl pin.
  do 3 f_equal. rewrite Z2Nat.inj_add by lia. lia.
Qed.

Lemma STM32_delay_ms_add_witness :
  (STM32.delay_ms 1 ;;; STM32.delay_ms 2) (boot LOW) =
  STM32.delay_ms (1 + 2) (boot LOW).
Proof. apply (STM32_delay_ms_add 1 2 (boot LOW)); lia. Defined.

(** X3: delay_ms of the Nuvoton template always returns, writes nothing to
    the pin, and waits by one call of CLK_SysTickDelay(1000) for each
    millisecond of its 16-bit argument and nothing else: (ms mod 65536) calls,
    that many milliseconds, whatever the speed of a busy loop. *)
Theorem Nuvoton_delay_ms_duration (spin_ns ms : Z) (s : state) :
  exists gap,
    Nuvoton.delay_ms ms s = Ok tt (after s (pin s) gap) /\
    gap = repeat (SysTickDelay 1000) (Z.to_nat (ms mod 2 ^ 16)) /\
    quiet gap = true /\
    elapsed spin_ns gap = (ms mod 2 ^ 16) * 1000000.
Proof.
  exists (repeat (SysTickDelay 1000) (Z.to_nat (u16 ms))).
  split; [apply Nuvoton_delay_ms_ok|]. split; [reflexivity|].
  split; [apply quiet_repeat_SysTick|].
  rewrite elapsed_repeat_SysTick.
  pose proof (u16_range ms) as Hr.
  rewrite Z2Nat.id by lia. unfold u16, wrap. lia.
Qed.

(** X4: delay_ms of the PIC template runs the same passes of the busy loop as
    delay_ms of the STM32 template: the 16-bit inner counter of the one and
    the 32-bit inner counter of the other both reach 1000. *)
Theorem PIC_delay_ms_same_passes (ms : Z) (s : state) :
  PIC.delay_ms ms s = STM32.delay_ms ms s.
Proof. now rewrite PIC_delay_ms_ok, STM32_delay_ms_ok. Qed.

(** ** WS2812_Send and the extent of its buffer *)

Lemma send_bytes_short (pData : list Z) (n : nat) : forall (i : Z) (s : state),
  0 <= i -> (0 < n)%nat -> (List.length pData < Z.to_nat i + n)%nat ->
  send_bytes pData n i s = Fault.
Proof.
  induction n as [|n IH]; intros i s Hi Hn Hlen; [lia|].
  unfold send_bytes. simpl for_from. unfold bind at 1. unfold bind at 1.
  destruct (nth_error pData (Z.to_nat i)) as [b|] eqn:Hb.
  - rewrite (read_ok _ _ _ b Hi Hb), send_byte_ok.
    fold (send_bytes pData n (i + 1)).
    assert (Z.to_nat i < List.length pData)%nat
      by (apply nth_error_Some; congruence).
    apply IH; lia.
  - unfold read. destruct (i <? 0); [reflexivity|]. now rewrite Hb.
Qed.

Lemma WS2812_Send_short (pData : list Z) (Len : Z) (s : state) :
  Z.of_nat (List.length pData) < u16 Len ->
  STM32.WS2812_Send pData Len s = Fault.
Proof.
  intros H. rewrite WS2812_Send_unfold. apply send_bytes_short; lia.
Qed.

(** X5: WS2812_Send reads the bytes 0 .. Len - 1 of its buffer and has no
    check of its own: a call completes without a read outside the buffer
    exactly when the buffer holds at least Len bytes. *)
Theorem WS2812_Send_completes_iff (pData : list Z) (Len : Z) (s : state) :
  (exists s', STM32.WS2812_Send pData Len s = Ok tt s') <->
  u16 Len <= Z.of_nat (List.length pData).
Proof.
  split.
  - intros [s' H].
    destruct (Z_le_gt_dec (u16 Len) (Z.of_nat (List.length pData))) as [Hle | Hgt];
      [exact Hle|].
    rewrite WS2812_Send_short in H by lia. discriminate.
  - intros H. eexists. apply WS2812_Send_ok. exact H.
Qed.

(** X6: what a call of WS2812_Send does is fixed by Len and the number of
    bytes of the buffer; the values of the bytes have no effect on the pin,
    on the log or on whether the call completes. *)
Theorem WS2812_Send_ignores_values (p q : list Z) (Len : Z) (s : state) :
  List.length p = List.length q ->
  STM32.WS2812_Send p Len s = STM32.WS2812_Send q Len s.
Proof.
  intros Hlen.
  destruct (Z_le_gt_dec (u16 Len) (Z.of_nat (List.length p))) as [Hle | Hgt].
  - rewrite !WS2812_Send_ok by lia. reflexivity.
  - rewrite !WS2812_Send_short by lia. reflexivity.
Qed.

Lemma WS2812_Send_ignores_values_witness :
  STM32.WS2812_Send [255; 0] 2 (boot LOW) = STM32.WS2812_Send [1; 2] 2 (boot LOW).
Proof. apply (WS2812_Send_ignores_values [255; 0] [1; 2] 2 (boot LOW)). reflexivity. Defined.

(** ** Runs of the playback loop over whole frames *)

Lemma zrange_map_nth {A B} (h : A -> B) (d0 : A) (l : list A) :
  forall pre : list A,
    map (fun i => h (nth (Z.to_nat i) (pre ++ l) d0))
        (zrange (Z.of_nat (List.length pre)) (List.length l)) =
    map h l.
Proof.
  induction l as [|x l IH]; intros pre; [reflexivity|].
  simpl. f_equal.
  - rewrite Nat2Z.id, app_nth2, Nat.sub_diag by lia. reflexivity.
  - specialize (IH (pre ++ [x])).
    rewrite <- app_assoc, length_app, Nat2Z.inj_add in IH. exact IH.
Qed.

Lemma elapsed_app (spin_ns : Z) (t1 t2 : list event) :
  elapsed spin_ns (t1 ++ t2) = elapsed spin_ns t1 + elapsed spin_ns t2.
Proof.
  induction t1 as [|e t1 IH]; [reflexivity|].
  change (elapsed spin_ns ((e :: t1) ++ t2))
    with (duration spin_ns e + elapsed spin_ns (t1 ++ t2)).
  change (elapsed spin_ns (e :: t1))
    with (duration spin_ns e + elapsed spin_ns t1).
  rewrite IH. lia.
Qed.

Lemma quiet_app (t1 t2 : list event) :
  quiet (t1 ++ t2) = quiet t1 && quiet t2.
Proof. apply forallb_app. Qed.

Section Frames.
Variables (w FC : Z) (body : Z -> M unit).
Variables (g : level -> level) (tr : Z -> list event).
Hypothesis FC_fits : FC < 2 ^ w.
Hypothesis g_idem : forall l, g (g l) = g l.
Hypothesis body_ok : forall idx s,
  0 <= idx < FC -> body idx s = Ok tt (after s (g (pin s)) (tr idx)).

(** [m] frames from the index [idx], none of them the wrap to 0. *)
Lemma playback_frames (m : nat) : forall (idx : Z) (s : state),
  0 <= idx -> idx + Z.of_nat m <= FC ->
  playback_loop w FC body m idx s =
  Ok (idx + Z.of_nat m)
     (after s (match m with O => pin s | S _ => g (pin s) end)
              (List.concat (map tr (zrange idx m)))).
Proof.
  induction m as [|m IH]; intros idx s Hidx Hm.
  - simpl. unfold ret. now rewrite after_nil, Z.add_0_r.
  - simpl playback_loop.
    destruct (idx <? FC) eqn:E; [|apply Z.ltb_ge in E; lia].
    unfold bind. rewrite body_ok by lia.
    replace (wrap w (idx + 1)) with (idx + 1)
      by (unfold wrap; rewrite Z.mod_small; lia).
    rewrite IH by lia. rewrite after_after. f_equal; [lia|].
    f_equal. simpl pin. destruct m; [reflexivity | apply g_idem].
Qed.

(** One pass: all frames, then the check that ends the [for] statement. *)
Lemma playback_pass (s : state) :
  0 <= FC ->
  playback_loop w FC body (Z.to_nat FC + 1) 0 s =
  Ok 0 (after s (match Z.to_nat FC with O => pin s | S _ => g (pin s) end)
                (List.concat (map tr (zrange 0 (Z.to_nat FC))))).
Proof.
  intros HFC. rewrite playback_loop_app. unfold bind.
  rewrite playback_frames by lia.
  replace (0 + Z.of_nat (Z.to_nat FC)) with FC by lia.
  simpl playback_loop. now rewrite Z.ltb_irrefl.
Qed.

(** [k] passes in a row. *)
Lemma playback_passes (k : nat) : forall s : state,
  0 <= FC ->
  playback_loop w FC body (k * (Z.to_nat FC + 1)) 0 s =
  Ok 0 (after s (match (k * Z.to_nat FC)%nat with
                 | O => pin s
                 | S _ => g (pin s)
                 end)
                (List.concat (repeat (List.concat (map tr (zrange 0 (Z.to_nat FC)))) k))).
Proof.
  induction k as [|k IH]; intros s HFC.
  - simpl. unfold ret. now rewrite after_nil.
  - change (S k * (Z.to_nat FC + 1))%nat
      with ((Z.to_nat FC + 1) + k * (Z.to_nat FC + 1))%nat.
    rewrite playback_loop_app. unfold bind.
    rewrite playback_pass, IH, after_after by assumption.
    f_equal. f_equal. simpl pin.
    destruct (Z.to_nat FC) as [|n].
    + rewrite !Nat.mul_0_r. reflexivity.
    + destruct (k * S n)%nat; simpl; [reflexivity | apply g_idem].
Qed.
End Frames.

(** ** stm32f407_template.c: frames and passes *)

(** X7: a frame of the STM32 playback loop asks WS2812_Send for
    LED_COUNT * 3 bytes through a 16-bit length, so it sends the first
    (LED_COUNT * 3) mod 65536 bytes of the frame's buffer, 8 pulses each, and
    then waits for the frame's duration; the bytes of a longer buffer that
    come after these are not sent. *)
Theorem STM32_frame_body_sends_len_mod (pd : pattern_data) (idx : Z)
    (row : list Z) (d : Z) (s : state) :
  0 <= idx ->
  nth_error (frames pd) (Z.to_nat idx) = Some row ->
  nth_error (frame_durations pd) (Z.to_nat idx) = Some d ->
  (NUM_LEDS pd * 3) mod 2 ^ 16 <= Z.of_nat (List.length row) ->
  STM32.frame_body pd idx s =
  Ok tt (after s (pin_after_pulses (Z.to_nat ((NUM_LEDS pd * 3) mod 2 ^ 16)) (pin s))
               (pulse_train (8 * Z.to_nat ((NUM_LEDS pd * 3) mod 2 ^ 16)) ++
                repeat Busy (Z.to_nat (d mod 2 ^ 16) * 1000))).
Proof.
  intros Hidx Hrow Hd Hlen.
  unfold STM32.frame_body. unfold bind at 1.
  rewrite (read_ok _ _ _ row) by assumption.
  unfold bind at 1.
  rewrite (read_ok _ _ _ d) by assumption.
  cbv zeta. unfold bind, STM32.LED_COUNT.
  rewrite WS2812_Send_ok by exact Hlen.
  rewrite STM32_delay_ms_ok, after_after.
  rewrite (u16_small (u16 d)) by apply u16_range.
  reflexivity.
Qed.

Lemma STM32_frame_body_sends_len_mod_witness :
  STM32.frame_body long_chain 0 (boot HIGH) =
  Ok tt (after (boot HIGH)
               (pin_after_pulses (Z.to_nat ((NUM_LEDS long_chain * 3) mod 2 ^ 16)) (pin (boot HIGH)))
               (pulse_train (8 * Z.to_nat ((NUM_LEDS long_chain * 3) mod 2 ^ 16)) ++
                repeat Busy (Z.to_nat (1 mod 2 ^ 16) * 1000))).
Proof.
  apply (STM32_frame_body_sends_len_mod long_chain 0
           (repeat 0 (Z.to_nat 65538)) 1 (boot HIGH)).
  - lia.
  - reflexivity.
  - reflexivity.
  - rewrite repeat_length. vm_compute. discriminate.
Defined.

(** The chain of 21846 LEDs gets 2 of the 65538 bytes of its frame. *)
Example long_chain_sends_two_bytes :
  (NUM_LEDS long_chain * 3) mod 2 ^ 16 = 2.
Proof. reflexivity. Qed.

Lemma STM32_frame_log_tables (pd : pattern_data) (d : Z) :
  tables_ok pd ->
  STM32_frame_log pd d =
  pulse_train (8 * Z.to_nat (NUM_LEDS pd * 3)) ++
  repeat Busy (Z.to_nat (u16 d) * Z.to_nat 1000).
Proof.
  intros [_ _ _ Hpos Hfit]. unfold STM32_frame_log.
  rewrite u16_small by lia. reflexivity.
Qed.

Lemma STM32_frame_body_tables (pd : pattern_data) (idx : Z) (s : state) :
  tables_ok pd -> 0 <= idx < FRAME_COUNT pd ->
  STM32.frame_body pd idx s =
  Ok tt (after s ((fun _ => LOW) (pin s))
               (STM32_frame_log pd (nth (Z.to_nat idx) (frame_durations pd) 0))).
Proof.
  intros Hok Hidx.
  destruct (STM32_frame_body_ok pd idx s Hok Hidx)
    as (row & d & _ & Hd & _ & _ & Hbody).
  rewrite Hbody, (STM32_frame_log_tables pd _ Hok).
  now rewrite (nth_error_nth _ _ 0 Hd).
Qed.

Lemma STM32_pass_log_zrange (pd : pattern_data) :
  tables_ok pd ->
  List.concat
    (map (fun idx => STM32_frame_log pd (nth (Z.to_nat idx) (frame_durations pd) 0))
         (zrange 0 (Z.to_nat (FRAME_COUNT pd)))) =
  STM32_pass_log pd.
Proof.
  intros [Hfc Hdl _ _ _]. unfold STM32_pass_log.
  rewrite flat_map_concat_map. f_equal.
  replace (Z.to_nat (FRAME_COUNT pd)) with (List.length (frame_durations pd)) by lia.
  apply (zrange_map_nth (STM32_frame_log pd) 0 (frame_durations pd) []).
Qed.

(** X8: the STM32 playback loop is periodic.  With well-formed tables of at
    least one frame, [k] passes (FRAME_COUNT + 1 condition checks each) end at
    frame index 0 again and have added to the log [k] copies of the same pass:
    for every frame in order, the pulses of its buffer and then the busy
    passes of its duration.  Nothing else is written and no state builds up. *)
Theorem STM32_playback_periodic (pd : pattern_data) (k : nat) (s : state) :
  tables_ok pd ->
  0 < FRAME_COUNT pd < 2 ^ 16 ->
  STM32.playback pd (k * (Z.to_nat (FRAME_COUNT pd) + 1)) 0 s =
  Ok 0 (after s (pin_after_pulses k (pin s))
                (List.concat (repeat (STM32_pass_log pd) k))).
Proof.
  intros Hok HFC. unfold STM32.playback.
  rewrite (playback_passes 16 (FRAME_COUNT pd) (STM32.frame_body pd)
             (fun _ => LOW)
             (fun idx => STM32_frame_log pd (nth (Z.to_nat idx) (frame_durations pd) 0)));
    try lia; try reflexivity.
  - rewrite (STM32_pass_log_zrange pd Hok). do 2 f_equal.
    destruct k as [|k]; [reflexivity|].
    destruct (Z.to_nat (FRAME_COUNT pd)) eqn:E; [lia | reflexivity].
  - intros idx s1 Hidx. now apply STM32_frame_body_tables.
Qed.

Lemma STM32_playback_periodic_witness :
  STM32.playback two_frames (2 * (Z.to_nat (FRAME_COUNT two_frames) + 1)) 0 (boot HIGH) =
  Ok 0 (after (boot HIGH) (pin_after_pulses 2 (pin (boot HIGH)))
              (List.concat (repeat (STM32_pass_log two_frames) 2))).
Proof.
  apply (STM32_playback_periodic two_frames 2 (boot HIGH)).
  - constructor; simpl; try reflexivity. repeat constructor.
  - simpl. lia.
Defined.

(** What a frame of the STM32 loop does when it completes, whatever the
    tables are. *)
Lemma STM32_frame_body_inv (pd : pattern_data) (idx : Z) (s s' : state) :
  STM32.frame_body pd idx s = Ok tt s' ->
  exists d,
    s' = after s (pin_after_pulses (Z.to_nat (u16 (NUM_LEDS pd * 3))) (pin s))
               (STM32_frame_log pd d).
Proof.
  unfold STM32.frame_body. unfold bind at 1.
  destruct (read (frames pd) idx s) as [row s1| |] eqn:Hr; try discriminate.
  apply read_inv in Hr. destruct Hr as (-> & _).
  unfold bind at 1.
  destruct (read (frame_durations pd) idx s) as [d s1| |] eqn:Hd; try discriminate.
  apply read_inv in Hd. destruct Hd as (-> & _).
  cbv zeta. unfold bind.
  destruct (STM32.WS2812_Send row (STM32.LED_COUNT pd * 3) s)
    as [[] s1| |] eqn:Hs; try discriminate.
  apply WS2812_Send_inv in Hs. subst s1.
  rewrite STM32_delay_ms_ok, after_after.
  rewrite (u16_small (u16 d)) by apply u16_range.
  intros H; inversion H; subst. exists d. reflexivity.
Qed.

(** A property of the state that every completed frame keeps is kept by the
    playback loop, however long it runs. *)
Lemma playback_loop_invariant (w FC : Z) (body : Z -> M unit) (I : state -> Prop)
    (Hbody : forall i s s', I s -> body i s = Ok tt s' -> I s') (n : nat) :
  forall (idx idx' : Z) (s s' : state),
    I s -> playback_loop w FC body n idx s = Ok idx' s' -> I s'.
Proof.
  induction n as [|n IH]; intros idx idx' s s' HI H.
  - simpl in H. unfold ret in H. inversion H; subst. exact HI.
  - simpl in H. destruct (idx <? FC).
    + unfold bind in H. destruct (body idx s) as [[] s1| |] eqn:Hb; try discriminate.
      eapply IH; [|exact H]. eapply Hbody; eassumption.
    + eapply IH; eassumption.
Qed.

(** X9: the STM32 playback loop keeps the line idle LOW between frames: if
    the line is LOW at one condition check of the loop it is LOW at every
    later one, and the pin stays configured as it was. *)
Theorem STM32_playback_line_idles_low (pd : pattern_data) (n : nat)
    (idx idx' : Z) (s s' : state) :
  STM32.playback pd n idx s = Ok idx' s' ->
  pin s = LOW ->
  pin s' = LOW /\ pin_dir s' = pin_dir s.
Proof.
  intros Hrun Hlow.
  apply (playback_loop_invariant 16 (FRAME_COUNT pd) (STM32.frame_body pd)
           (fun t => pin t = LOW /\ pin_dir t = pin_dir s) ) with (n := n)
           (idx := idx) (idx' := idx') (s := s); auto.
  intros i t t' [Ht Hd] Hb. apply STM32_frame_body_inv in Hb.
  destruct Hb as [d ->]. simpl. split; [|exact Hd].
  rewrite Ht. destruct (Z.to_nat _); reflexivity.
Qed.

Lemma STM32_playback_line_idles_low_witness :
  pin (after (boot LOW) LOW (STM32_pass_log two_frames)) = LOW /\
  pin_dir (after (boot LOW) LOW (STM32_pass_log two_frames)) = pin_dir (boot LOW).
Proof.
  apply (STM32_playback_line_idles_low two_frames 3 0 0 (boot LOW)).
  - vm_compute. reflexivity.
  - reflexivity.
Defined.

(** X10: with well-formed tables of fewer than 65536 frames the STM32
    firmware never reads outside its tables and never stops: for every number
    of condition checks main has reached a state, with the pin an output, at
    the frame index that the cyclic order 0, ..., FRAME_COUNT - 1, FRAME_COUNT
    (the check that ends the for statement), 0, ... gives. *)
Theorem STM32_main_runs_forever (pd : pattern_data) (fuel : nat) (s : state) :
  tables_ok pd ->
  FRAME_COUNT pd < 2 ^ 16 ->
  exists s',
    STM32.main pd fuel s = Ok (Z.of_nat fuel mod (FRAME_COUNT pd + 1)) s' /\
    pin_dir s' = Output.
Proof.
  intros Hok HFC.
  destruct (STM32_playback_cycles pd (mkState Output (pin s) (log s)) Hok HFC fuel)
    as [s' Hs'].
  exists s'. split; [exact Hs'|].
  apply (playback_loop_invariant 16 (FRAME_COUNT pd) (STM32.frame_body pd)
           (fun t => pin_dir t = Output)) with (n := fuel) (idx := 0)
           (idx' := Z.of_nat fuel mod (FRAME_COUNT pd + 1))
           (s := mkState Output (pin s) (log s)); auto.
  intros i t t' Ht Hb. apply STM32_frame_body_inv in Hb.
  destruct Hb as [d ->]. exact Ht.
Qed.

Lemma STM32_main_runs_forever_witness :
  exists s',
    STM32.main two_frames 4 (boot HIGH) =
      Ok (Z.of_nat 4 mod (FRAME_COUNT two_frames + 1)) s' /\
    pin_dir s' = Output.
Proof.
  apply (STM32_main_runs_forever two_frames 4 (boot HIGH)).
  - constructor; simpl; try reflexivity. repeat constructor.
  - reflexivity.
Defined.

(** ** The Nuvoton and PIC templates: what reaches the pin *)

(** X11: in the Nuvoton firmware the only write to the LED pin is the one of
    INIT: at every condition check of the playback loop, for every pattern
    and every state at boot, the line is LOW and the writes of the log are
    those from before main followed by that one write of LOW.  No frame data
    reaches the pin. *)
Theorem Nuvoton_main_only_write_is_init (pd : pattern_data) (fuel : nat)
    (s s' : state) (idx : Z) :
  Nuvoton.main pd fuel s = Ok idx s' ->
  pin s' = LOW /\ writes (log s') = writes (log s) ++ [Write LOW].
Proof.
  unfold Nuvoton.main, bind, Nuvoton.init, bind, set_dir, set_pin. simpl.
  intros H. apply Nuvoton_playback_no_write in H. simpl in H.
  destruct H as [Hpin Hlog]. split; [exact Hpin|].
  unfold writes. rewrite Hlog, filter_app. reflexivity.
Qed.

Lemma Nuvoton_main_only_write_is_init_witness :
  pin (mkState Output LOW (Write LOW :: repeat (SysTickDelay 1000) 3)) = LOW /\
  writes (log (mkState Output LOW (Write LOW :: repeat (SysTickDelay 1000) 3))) =
    writes (log (boot HIGH)) ++ [Write LOW].
Proof.
  apply (Nuvoton_main_only_write_is_init two_frames 3 (boot HIGH) _ 0).
  vm_compute. reflexivity.
Defined.

(** X12: in the PIC firmware the only write to the LED pin is the one of
    INIT: at every condition check of the playback loop the line is LOW and
    the writes of the log are those from before main followed by that one
    write of LOW.  No frame data reaches the pin. *)
Theorem PIC_main_only_write_is_init (pd : pattern_data) (fuel : nat)
    (s s' : state) (idx : Z) :
  PIC.main pd fuel s = Ok idx s' ->
  pin s' = LOW /\ writes (log s') = writes (log s) ++ [Write LOW].
Proof.
  unfold PIC.main, bind, PIC.init, bind, set_dir, set_pin. simpl.
  intros H. apply PIC_playback_no_write in H. simpl in H.
  destruct H as [Hpin Hlog]. split; [exact Hpin|].
  unfold writes. rewrite Hlog, filter_app. reflexivity.
Qed.

Lemma PIC_main_only_write_is_init_witness :
  pin (mkState Output LOW (Write LOW :: repeat Busy 3000)) = LOW /\
  writes (log (mkState Output LOW (Write LOW :: repeat Busy 3000))) =
    writes (log (boot HIGH)) ++ [Write LOW].
Proof.
  apply (PIC_main_only_write_is_init two_frames 3 (boot HIGH) _ 0).
  vm_compute. reflexivity.
Defined.

(** ** The width of the frame index *)

(** The playback loop calls its body only at indices that the counter can
    hold. *)
Lemma playback_loop_ext (w FC : Z) (body body' : Z -> M unit)
    (Hw : 0 <= w)
    (Hext : forall i s, 0 <= i < 2 ^ w -> body i s = body' i s) (n : nat) :
  forall (idx : Z) (s : state),
    0 <= idx < 2 ^ w ->
    playback_loop w FC body n idx s = playback_loop w FC body' n idx s.
Proof.
  assert (Hpos : 0 < 2 ^ w) by (apply Z.pow_pos_nonneg; lia).
  induction n as [|n IH]; intros idx s Hidx; [reflexivity|].
  simpl. destruct (idx <? FC).
  - unfold bind. rewrite Hext by exact Hidx.
    destruct (body' idx s) as [[] s1| |]; try reflexivity.
    apply IH. unfold wrap. apply Z.mod_pos_bound. exact Hpos.
  - apply IH. lia.
Qed.

Lemma read_firstn {A} (n : nat) (l : list A) (i : Z) (s : state) :
  i < Z.of_nat n -> read (firstn n l) i s = read l i s.
Proof.
  intros Hi. unfold read. destruct (i <? 0) eqn:E; [reflexivity|].
  apply Z.ltb_ge in E. rewrite nth_error_firstn.
  destruct (Nat.ltb_spec (Z.to_nat i) n); [reflexivity | lia].
Qed.

(** X13: the frame index of the PIC template has 8 bits, so the playback
    loop only ever plays frames 0 to 255: the entries of [frames] and
    [frame_durations] from index 256 on have no effect on any run, whatever
    FRAME_COUNT is. *)
Theorem PIC_playback_first_256_frames (pd : pattern_data) (n : nat) (s : state) :
  PIC.playback pd n 0 s = PIC.playback (first_frames 256 pd) n 0 s.
Proof.
  unfold PIC.playback, first_frames. cbn [FRAME_COUNT].
  apply playback_loop_ext; [lia | | split; [lia | reflexivity]].
  intros i t Hi. unfold PIC.frame_body, PIC.LED_COUNT, bind.
  cbn [frames frame_durations NUM_LEDS].
  assert (Hi' : i < Z.of_nat 256) by (change (2 ^ 8) with 256 in Hi; lia).
  rewrite (read_firstn 256 (frames pd) i t Hi').
  destruct (read (frames pd) i t) as [row t1| |]; try reflexivity.
  rewrite (read_firstn 256 (frame_durations pd) i t1 Hi'). reflexivity.
Qed.

(** ** nuvoton_m051_template.c: the time of a pass *)

Lemma Nuvoton_frame_body_tables (pd : pattern_data) (idx : Z) (s : state) :
  Z.of_nat (List.length (frames pd)) = FRAME_COUNT pd ->
  List.length (frame_durations pd) = List.length (frames pd) ->
  NUM_LEDS pd < 2 ^ 16 ->
  0 <= idx < FRAME_COUNT pd ->
  Nuvoton.frame_body pd idx s =
  Ok tt (after s ((fun l => l) (pin s))
               (repeat (SysTickDelay 1000)
                  (Z.to_nat (u16 (nth (Z.to_nat idx) (frame_durations pd) 0))))).
Proof.
  intros Hfc Hdl Hleds Hidx.
  destruct (nth_error (frames pd) (Z.to_nat idx)) as [row|] eqn:Hrow;
    [|apply nth_error_None in Hrow; lia].
  destruct (nth_error (frame_durations pd) (Z.to_nat idx)) as [d|] eqn:Hd;
    [|apply nth_error_None in Hd; lia].
  unfold Nuvoton.frame_body. unfold bind at 1.
  rewrite (read_ok _ _ _ row) by (lia || assumption).
  unfold bind at 1.
  rewrite (read_ok _ _ _ d) by (lia || assumption).
  cbv zeta. unfold bind, Nuvoton.LED_COUNT.
  rewrite for_loop_in_range, for_from_skip by exact Hleds.
  rewrite Nuvoton_delay_ms_ok.
  rewrite (u16_small (u16 d)) by apply u16_range.
  now rewrite (nth_error_nth _ _ 0 Hd).
Qed.

Lemma SysTick_pass_time (spin_ns : Z) (ds : list Z) :
  quiet (flat_map (fun d => repeat (SysTickDelay 1000) (Z.to_nat (u16 d))) ds) = true /\
  elapsed spin_ns
    (flat_map (fun d => repeat (SysTickDelay 1000) (Z.to_nat (u16 d))) ds) =
  fold_right (fun d t => u16 d + t) 0 ds * 1000000.
Proof.
  induction ds as [|d ds [IHq IHe]]; [split; reflexivity|].
  simpl flat_map. simpl fold_right.
  rewrite quiet_app, elapsed_app, IHq, IHe, quiet_repeat_SysTick,
    elapsed_repeat_SysTick.
  pose proof (u16_range d) as Hr.
  rewrite Z2Nat.id by lia. split; [reflexivity | lia].
Qed.

(** X14: one pass of the Nuvoton playback loop over well-formed tables (fewer
    than 65536 frames and LEDs) ends at frame index 0 with the pin as it was,
    writes nothing, and waits in CLK_SysTickDelay for the sum of the frame
    durations, each taken as a 16-bit value, in milliseconds. *)
Theorem Nuvoton_pass_time (spin_ns : Z) (pd : pattern_data) (s : state) :
  Z.of_nat (List.length (frames pd)) = FRAME_COUNT pd ->
  List.length (frame_durations pd) = List.length (frames pd) ->
  NUM_LEDS pd < 2 ^ 16 ->
  FRAME_COUNT pd < 2 ^ 16 ->
  exists gap,
    Nuvoton.playback pd (Z.to_nat (FRAME_COUNT pd) + 1) 0 s =
      Ok 0 (after s (pin s) gap) /\
    quiet gap = true /\
    elapsed spin_ns gap = total_ms pd * 1000000.
Proof.
  intros Hfc Hdl Hleds HFC.
  exists (flat_map (fun d => repeat (SysTickDelay 1000) (Z.to_nat (u16 d)))
            (frame_durations pd)).
  split; [|apply SysTick_pass_time].
  unfold Nuvoton.playback.
  rewrite (playback_pass 16 (FRAME_COUNT pd) (Nuvoton.frame_body pd)
             (fun l => l)
             (fun idx => repeat (SysTickDelay 1000)
                (Z.to_nat (u16 (nth (Z.to_nat idx) (frame_durations pd) 0)))));
    try lia; try reflexivity.
  - do 2 f_equal; [destruct (Z.to_nat (FRAME_COUNT pd)); reflexivity|].
    rewrite flat_map_concat_map. f_equal.
    replace (Z.to_nat (FRAME_COUNT pd)) with (List.length (frame_durations pd)) by lia.
    apply (zrange_map_nth
             (fun d => repeat (SysTickDelay 1000) (Z.to_nat (u16 d)))
             0 (frame_durations pd) []).
  - intros idx s1 Hidx. now apply Nuvoton_frame_body_tables.
Qed.

Lemma Nuvoton_pass_time_witness :
  exists gap,
    Nuvoton.playback two_frames (Z.to_nat (FRAME_COUNT two_frames) + 1) 0 (boot LOW) =
      Ok 0 (after (boot LOW) (pin (boot LOW)) gap) /\
    quiet gap = true /\
    elapsed 50 gap = total_ms two_frames * 1000000.
Proof.
  apply (Nuvoton_pass_time 50 two_frames (boot LOW)); reflexivity.
Defined.

(** ** Edge cases of the loops *)

Lemma playback_loop_no_frames (w FC : Z) (body : Z -> M unit) (n : nat) (s : state) :
  FC <= 0 -> playback_loop w FC body n 0 s = Ok 0 s.
Proof.
  intros HFC. induction n as [|n IH]; [reflexivity|].
  simpl. destruct (0 <? FC) eqn:E; [apply Z.ltb_lt in E; lia | exact IH].
Qed.

(** X15: with FRAME_COUNT = 0 the playback loop of each template spins
    without effect: no frame is read, nothing is sent, no delay runs, and the
    state is the same at every condition check. *)
Theorem playback_without_frames (pd : pattern_data) (n : nat) (s : state) :
  FRAME_COUNT pd <= 0 ->
  STM32.playback pd n 0 s = Ok 0 s /\
  Nuvoton.playback pd n 0 s = Ok 0 s /\
  PIC.playback pd n 0 s = Ok 0 s.
Proof.
  intros HFC. unfold STM32.playback, Nuvoton.playback, PIC.playback.
  rewrite !playback_loop_no_frames by exact HFC. auto.
Qed.

Lemma playback_without_frames_witness :
  STM32.playback no_frames 5 0 (boot HIGH) = Ok 0 (boot HIGH) /\
  Nuvoton.playback no_frames 5 0 (boot HIGH) = Ok 0 (boot HIGH) /\
  PIC.playback no_frames 5 0 (boot HIGH) = Ok 0 (boot HIGH).
Proof. apply (playback_without_frames no_frames 5 (boot HIGH)). simpl. lia. Defined.

(** X16: consecutive calls of WS2812_Send add up: sending [a] bytes and then
    [b] bytes leaves the pin and the log exactly as one call for [a + b]
    bytes does (no gap is inserted between calls), as long as the buffers
    hold the bytes and the total fits the 16-bit length. *)
Theorem WS2812_Send_calls_add (p q r : list Z) (a b : Z) (s : state) :
  0 <= a <= Z.of_nat (List.length p) ->
  0 <= b <= Z.of_nat (List.length q) ->
  a + b <= Z.of_nat (List.length r) ->
  a + b < 2 ^ 16 ->
  (STM32.WS2812_Send p a ;;; STM32.WS2812_Send q b) s =
  STM32.WS2812_Send r (a + b) s.
Proof.
  intros Ha Hb Hr Hfit. unfold bind.
  assert (Hua : u16 a = a) by (apply u16_small; lia).
  assert (Hub : u16 b = b) by (apply u16_small; lia).
  assert (Huab : u16 (a + b) = a + b) by (apply u16_small; lia).
  rewrite (WS2812_Send_ok p a) by lia.
  rewrite (WS2812_Send_ok q b) by lia.
  rewrite (WS2812_Send_ok r (a + b)) by lia.
  rewrite Hua, Hub, Huab, after_after. simpl pin.
  rewrite pin_after_pulses_add, <- pulse_train_app.
  rewrite Z2Nat.inj_add by lia.
  replace (8 * Z.to_nat a + 8 * Z.to_nat b)%nat
    with (8 * (Z.to_nat a + Z.to_nat b))%nat by lia.
  reflexivity.
Qed.

Lemma WS2812_Send_calls_add_witness :
  (STM32.WS2812_Send [255; 0; 0] 3 ;;; STM32.WS2812_Send [0; 255; 0] 3) (boot HIGH) =
  STM32.WS2812_Send [255; 0; 0; 0; 255; 0] (3 + 3) (boot HIGH).
Proof.
  apply (WS2812_Send_calls_add [255; 0; 0] [0; 255; 0] [255; 0; 0; 0; 255; 0] 3 3
           (boot HIGH)); simpl; lia.
Defined.
